(** * science_numpy.py: the cheatsheet script and the array operations it shows

    The development has two parts.

    - [Np] is a list model of the array operations whose behaviour the
      script demonstrates: [np.arange], [reshape], the helper
      [numbers_array], [np.where] against the list comprehension of line
      282, and views against copies (basic slices, [.copy()], Boolean
      indexing) over an explicit store of buffers.
    - [Py] is the script itself: its statements, transcribed line by line as
      a syntax tree in the shape of Python's [ast] module, static analyses
      over that tree, and a statement-level execution model in which the
      behaviour of the library (does this statement raise?) is an oracle. *)

From Stdlib Require Import ZArith List Bool Lia.
From stdpp Require Import base option list gmap sets strings.

(* ===================================================================== *)
(** * Array operations                                                     *)
(* ===================================================================== *)

Module Np.

(** ** Values: [np.arange], [reshape], [numbers_array] (lines 227-228) *)

(** The integers [0, 1, ..., n-1]: the contents of [np.arange(n)]. *)
Definition upto (n : nat) : list Z := Z.of_nat <$> seq 0 n.

(** *** Sizes

    The arrays made here hold the default integer type of a 64-bit
    platform, [int64], 8 bytes an item.  NumPy keeps sizes in the signed
    64-bit [npy_intp] and refuses, with a [ValueError], an array whose size
    in bytes does not fit it. *)
Definition itemsize : N := 8.
Definition max_intp : N := 2 ^ 63 - 1.

(** The size in bytes as the array constructor computes it: the item size
    times every dimension that is not 0. *)
Definition nbytes (dims : list nat) : N :=
  foldl (λ b d, if decide (d = 0) then b else (b * N.of_nat d)%N) itemsize dims.

(** The constructor accepts the dimensions. *)
Definition representable (dims : list nat) : bool :=
  (nbytes dims <=? max_intp)%N.

(** [np.arange(n)]: a new array of [n] items.  [mem] is the number of bytes
    the allocator of the platform is able to hand out; [None] is the
    [ValueError] for a size NumPy refuses or the [MemoryError] for one the
    allocator refuses.  The items are below [n], so they fit [int64]. *)
Definition arange (mem : N) (n : nat) : option (list Z) :=
  if representable [n] && (itemsize * N.of_nat n <=? mem)%N
  then Some (upto n)
  else None.

(** A 2-D array: its shape and its elements in row-major (C) order, the
    order [reshape] uses by default. *)
Record ndarray2 (A : Type) := Ndarray2 { shape : nat * nat; flat : list A }.
Arguments Ndarray2 {A} _ _.
Arguments shape {A} _.
Arguments flat {A} _.

(** [a.reshape((nrow, ncol))] of a 1-D array: the same elements under a new
    shape, in a view for which nothing is allocated; [None] is the
    [ValueError] raised when the sizes do not agree or when the constructor
    refuses the dimensions. *)
Definition reshape {A} (a : list A) (shp : nat * nat) : option (ndarray2 A) :=
  if decide (length a = shp.1 * shp.2)
  then if representable [shp.1; shp.2] then Some (Ndarray2 shp a) else None
  else None.

(** [a[i, j]]; [None] is [IndexError]. *)
Definition item {A} (a : ndarray2 A) (i j : nat) : option A :=
  if decide (i < (shape a).1 ∧ j < (shape a).2)
  then flat a !! (i * (shape a).2 + j)
  else None.

(** [def numbers_array(nrow, ncol):
        return np.arange(nrow*ncol).reshape((nrow, ncol))] *)
Definition numbers_array (mem : N) (nrow ncol : nat) : option (ndarray2 Z) :=
  a ← arange mem (nrow * ncol);
  reshape a (nrow, ncol).

(** ** [np.where] and the list comprehension (lines 279-285) *)

(** Python's [zip] of three sequences stops at the shortest one. *)
Fixpoint zip3 {A B C} (xs : list A) (ys : list B) (cs : list C)
  : list (A * B * C) :=
  match xs, ys, cs with
  | x :: xs', y :: ys', c :: cs' => (x, y, c) :: zip3 xs' ys' cs'
  | _, _, _ => []
  end.

(** [[(x if c else y) for x, y, c in zip(xarr, yarr, cond)]] *)
Definition comprehension {A} (xarr yarr : list A) (cond : list bool) : list A :=
  map (λ t : A * A * bool, let '(x, y, c) := t in if c then x else y)
      (zip3 xarr yarr cond).

(** Broadcasting of two lengths: equal, or one of them is 1. *)
Definition broadcast_dim (m n : nat) : option nat :=
  if decide (m = 1) then Some n
  else if decide (n = 1) then Some m
  else if decide (m = n) then Some m
  else None.

(** A 1-D operand seen at the broadcast length [n]. *)
Definition broadcast_to {A} (n : nat) (a : list A) : list A :=
  if decide (length a = n) then a
  else match a with
       | x :: _ => replicate n x
       | [] => []
       end.

(** [np.where(cond, xarr, yarr)] on 1-D operands; [None] is the
    [ValueError] for shapes that cannot be broadcast together. *)
Definition np_where {A} (cond : list bool) (xarr yarr : list A) : option (list A) :=
  n0 ← broadcast_dim (length cond) (length xarr);
  n ← broadcast_dim n0 (length yarr);
  Some (zip_with (λ (c : bool) (xy : A * A), if c then xy.1 else xy.2)
          (broadcast_to n cond)
          (zip (broadcast_to n xarr) (broadcast_to n yarr))).

(** ** Views and copies (lines 198-218 and 253-259)

    Arrays are views on buffers.  The store holds the buffers; an array
    names a buffer and a window on it.  Along the first axis an element is
    whatever the buffer holds: a number for the 1-D [arr] of lines 203-218,
    a row for the 2-D [data] of lines 230-259. *)

(** The store: the buffers, each named by its position. *)
Abbreviation store A := (list (list A)).

Section Views.
Context {A : Type}.

Record ndarray := Ndarray { base : nat; offset : nat; size : nat }.

(** The array owns a window inside an existing buffer. *)
Definition valid (h : store A) (a : ndarray) : Prop :=
  ∃ b, h !! base a = Some b ∧ offset a + size a ≤ length b.

(** The elements seen through the array. *)
Definition elems (h : store A) (a : ndarray) : option (list A) :=
  b ← h !! base a;
  Some (take (size a) (drop (offset a) b)).

(** [np.array(xs)]: a new buffer and an array on the whole of it. *)
Definition array (h : store A) (xs : list A) : store A * ndarray :=
  (h ++ [xs], Ndarray (length h) 0 (length xs)).

(** An index as Python reads it: negative ones count from the end;
    [None] is [IndexError]. *)
Definition index (n : nat) (i : Z) : option nat :=
  if decide (0 ≤ i < Z.of_nat n)%Z then Some (Z.to_nat i)
  else if decide (- Z.of_nat n ≤ i < 0)%Z then Some (Z.to_nat (Z.of_nat n + i))
  else None.

(** One bound of a slice with step 1: a negative bound counts from the
    end, and the result is clamped to [0 .. n]. *)
Definition bound (n : nat) (dflt : nat) (b : option Z) : nat :=
  match b with
  | None => dflt
  | Some z =>
      let z' := (if decide (z < 0)%Z then z + Z.of_nat n else z)%Z in
      Z.to_nat (Z.min (Z.max z' 0) (Z.of_nat n))
  end.

(** Start and stop of [lo:hi] on a sequence of length [n]. *)
Definition slice_indices (n : nat) (lo hi : option Z) : nat * nat :=
  (bound n 0 lo, bound n n hi).

(** [a[lo:hi]]: basic slicing.  No buffer is created: the result names
    the buffer of [a]. *)
Definition getslice (a : ndarray) (lo hi : option Z) : ndarray :=
  let se := slice_indices (size a) lo hi in
  Ndarray (base a) (offset a + se.1) (se.2 - se.1).

(** [a.copy()] *)
Definition copy (h : store A) (a : ndarray) : option (store A * ndarray) :=
  xs ← elems h a; Some (array h xs).

(** The elements selected by a Boolean mask. *)
Fixpoint select (mask : list bool) (xs : list A) : list A :=
  match mask, xs with
  | m :: mask', x :: xs' => if m then x :: select mask' xs' else select mask' xs'
  | _, _ => []
  end.

(** [a[mask]]: Boolean indexing; [None] is the [IndexError] for a mask
    whose length is not that of the array.  The length of an empty mask is
    not checked: it selects nothing, of any array. *)
Definition getmask (h : store A) (a : ndarray) (mask : list bool)
  : option (store A * ndarray) :=
  if decide (length mask = size a ∨ length mask = 0)
  then xs ← elems h a; Some (array h (select mask xs))
  else None.

(** Writing the buffer under the window of [a] at the positions [ks]. *)
Definition write (h : store A) (a : ndarray) (ks : list nat) (v : A) : option (store A) :=
  b ← h !! base a;
  Some (<[base a := foldr (λ k b', <[offset a + k := v]> b') b ks]> h).

(** [a[i] = v] *)
Definition setitem (h : store A) (a : ndarray) (i : Z) (v : A) : option (store A) :=
  k ← index (size a) i; write h a [k] v.

(** [a[lo:hi] = v], the scalar [v] broadcast over the slice *)
Definition setslice (h : store A) (a : ndarray) (lo hi : option Z) (v : A)
  : option (store A) :=
  let se := slice_indices (size a) lo hi in
  write h a (seq se.1 (se.2 - se.1)) v.

(** The positions at which a mask is true. *)
Fixpoint positions (k : nat) (mask : list bool) : list nat :=
  match mask with
  | [] => []
  | m :: mask' => if m then k :: positions (S k) mask' else positions (S k) mask'
  end.

(** [a[mask] = v]; an empty mask, as in [getmask], names no position. *)
Definition setmask (h : store A) (a : ndarray) (mask : list bool) (v : A)
  : option (store A) :=
  if decide (length mask = size a ∨ length mask = 0)
  then write h a (positions 0 mask) v
  else None.

(** The assignments into an array the script uses. *)
Inductive assignment :=
| AssignItem (i : Z) (v : A)
| AssignSlice (lo hi : option Z) (v : A)
| AssignMask (mask : list bool) (v : A).

Definition assign (h : store A) (a : ndarray) (s : assignment) : option (store A) :=
  match s with
  | AssignItem i v => setitem h a i v
  | AssignSlice lo hi v => setslice h a lo hi v
  | AssignMask mask v => setmask h a mask v
  end.

(** A sequence of assignments into the same array; the first one that
    raises ends it. *)
Fixpoint assigns (h : store A) (a : ndarray) (ss : list assignment) : option (store A) :=
  match ss with
  | [] => Some h
  | s :: ss' => h' ← assign h a s; assigns h' a ss'
  end.
End Views.

(** ** More on views: sub-arrays and array-valued assignment (lines 188-196) *)

Section Blocks.
Context {A : Type}.

(** [a[i]] on the first axis of an array whose sub-arrays hold [w]
    elements each, as [arr3d[0]] with [w = 6]: a view on the [i]-th block.
    [None] is [IndexError]. *)
Definition getblock (a : ndarray) (w : nat) (i : Z) : option ndarray :=
  k ← index (size a `div` w) i;
  Some (Ndarray (base a) (offset a + k * w) w).

(** [dst[...] = src]: the elements of [src] are read, then written over
    those of [dst]; [None] is the [ValueError] for sizes that differ. *)
Definition setarray (h : store A) (dst src : ndarray) : option (store A) :=
  xs ← elems h src;
  b ← h !! base dst;
  if decide (length xs = size dst)
  then Some (<[base dst := list_inserts (offset dst) xs b]> h)
  else None.

(** [a[...] = v]: the scalar [v] over the whole array *)
Definition fill (h : store A) (a : ndarray) (v : A) : option (store A) :=
  setslice h a None None v.

End Blocks.

(** ** 2-D arrays: rows, columns, fancy indexing, transposition
       (lines 230-273 and 296-298) *)

Section TwoDimensions.
Context {A : Type}.

Definition nrows (a : ndarray2 A) : nat := (shape a).1.
Definition ncols (a : ndarray2 A) : nat := (shape a).2.

(** The array holds as many elements as its shape says. *)
Definition wf (a : ndarray2 A) : Prop := length (flat a) = nrows a * ncols a.

(** The elements at the positions [ps], under the shape [shp]; [None], the
    [IndexError], as soon as one position is out of bounds. *)
Definition gather (a : ndarray2 A) (shp : nat * nat) (ps : list (nat * nat))
  : option (ndarray2 A) :=
  xs ← mapM (λ p : nat * nat, item a p.1 p.2) ps;
  Some (Ndarray2 shp xs).

(** The positions [(i, c)] for [i] in [ks] and [c] in [cs], row by row. *)
Definition mesh (ks cs : list nat) : list (nat * nat) :=
  ks ≫= λ i, pair i <$> cs.

(** [a[rows]] with a list of row indices, as [a[[4, 0, 2]]] *)
Definition take_rows (a : ndarray2 A) (rows : list Z) : option (ndarray2 A) :=
  ks ← mapM (index (nrows a)) rows;
  gather a (length ks, ncols a) (mesh ks (seq 0 (ncols a))).

(** [a[:, cols]] with a list of column indices, as [...[:, [0, 2]]] *)
Definition take_cols (a : ndarray2 A) (cols : list Z) : option (ndarray2 A) :=
  cs ← mapM (index (ncols a)) cols;
  gather a (nrows a, length cs) (mesh (seq 0 (nrows a)) cs).

(** [a[np.ix_(rows, cols)]]: the open mesh of the two index lists *)
Definition take_ix (a : ndarray2 A) (rows cols : list Z) : option (ndarray2 A) :=
  ks ← mapM (index (nrows a)) rows;
  cs ← mapM (index (ncols a)) cols;
  gather a (length ks, length cs) (mesh ks cs).

(** [a[rows, cols]] with two index lists, as [a[[1, 5, 7, 2], [0, 3, 1, 2]]]:
    the lists are broadcast against each other and paired; the result is
    1-D. *)
Definition take_pairs (a : ndarray2 A) (rows cols : list Z) : option (list A) :=
  n ← broadcast_dim (length rows) (length cols);
  ks ← mapM (index (nrows a)) (broadcast_to n rows);
  cs ← mapM (index (ncols a)) (broadcast_to n cols);
  mapM (λ p : nat * nat, item a p.1 p.2) (zip ks cs).

(** [a.T] *)
Definition transpose (a : ndarray2 A) : option (ndarray2 A) :=
  gather a (ncols a, nrows a)
         (seq 0 (ncols a) ≫= λ j, (λ i, (i, j)) <$> seq 0 (nrows a)).

(** [a[mask] = v] with a Boolean array of the shape of [a], as
    [data[data < 0] = 0]; [None] is the [IndexError] for another shape. *)
Definition setmask2 (a : ndarray2 A) (mask : ndarray2 bool) (v : A)
  : option (ndarray2 A) :=
  if decide (shape mask = shape a)
  then Some (Ndarray2 (shape a)
               (zip_with (λ (m : bool) x, if m then v else x) (flat mask) (flat a)))
  else None.

End TwoDimensions.

(** [a < c], element by element *)
Definition less (a : ndarray2 Z) (c : Z) : ndarray2 bool :=
  Ndarray2 (shape a) ((λ x, bool_decide (x < c)%Z) <$> flat a).

(** The value an [int64] holds when the exact result of an operation is
    [z]: the arithmetic of arrays wraps around, silently. *)
Definition int64 (z : Z) : Z := ((z + 2 ^ 63) `mod` 2 ^ 64 - 2 ^ 63)%Z.

(** [a[:, c] -= d] on an array of [int64]: the Python integer [d] is taken
    to the type of the items and subtracted in place from the column [c].
    [None] is the [IndexError] for the column, or the error raised for a
    [d] that no [int64] holds. *)
Definition isub_col (a : ndarray2 Z) (c : Z) (d : Z) : option (ndarray2 Z) :=
  j ← index (ncols a) c;
  if bool_decide (- 2 ^ 63 ≤ d < 2 ^ 63)%Z
  then Some (Ndarray2 (shape a)
               (imap (λ k x, if decide (k `mod` ncols a = j)
                             then int64 (x - d) else x)
                     (flat a)))
  else None.

(** ** Chained and paired indices (lines 183-185) *)

Section Indices.
Context {A : Type}.

(** [a[i]] on a 2-D array: the row, as a 1-D array *)
Definition getrow (a : ndarray2 A) (i : Z) : option (list A) :=
  k ← index (nrows a) i;
  Some (take (ncols a) (drop (k * ncols a) (flat a))).

(** [xs[j]] on a 1-D array *)
Definition getitem (xs : list A) (j : Z) : option A :=
  k ← index (length xs) j; xs !! k.

(** [a[i, j]] *)
Definition getitem2 (a : ndarray2 A) (i j : Z) : option A :=
  ki ← index (nrows a) i;
  kj ← index (ncols a) j;
  item a ki kj.

End Indices.

(** ** Boolean masks from comparisons (lines 235-255) *)

(** The strings of an array have one width and are padded with NUL
    characters, which a comparison does not see: a string without the NULs
    at its end. *)
Fixpoint rstrip_nul (s : string) : string :=
  match s with
  | EmptyString => EmptyString
  | String c s' =>
      match rstrip_nul s' with
      | EmptyString =>
          if Ascii.eqb c Ascii.zero then EmptyString else String c EmptyString
      | t => String c t
      end
  end.

(** Equality of two strings as the comparison of arrays finds it *)
Definition str_eq (c s : string) : bool :=
  String.eqb (rstrip_nul c) (rstrip_nul s).

(** [cats == s] and [cats != s], element by element *)
Definition eq_mask (cats : list string) (s : string) : list bool :=
  (λ c, str_eq c s) <$> cats.
Definition ne_mask (cats : list string) (s : string) : list bool :=
  (λ c, negb (str_eq c s)) <$> cats.
(** [m1 | m2] *)
Definition or_mask (m1 m2 : list bool) : list bool := zip_with orb m1 m2.

(** ** Strings: [heading] (lines 48-51) *)

(** [s * n] on a string: [n] copies of [s], none for [n <= 0] *)
Definition str_mul (s : string) (n : Z) : string :=
  Nat.iter (Z.to_nat n) (String.append s) EmptyString.

Definition newline : string := String (Ascii.ascii_of_nat 10) EmptyString.

(** [def heading(s):
        line = '-' *60
        print('\n' + line + '\n' + s + '\n' + line)]
    The text handed to [print]. *)
Definition heading (s : string) : string :=
  let line := str_mul "-" 60 in
  String.append (String.append (String.append (String.append (String.append
    newline line) newline) s) newline) line.

(** [s.split('\n')]: the pieces of [s] between its newlines *)
Fixpoint split_lines (s : string) : list string :=
  match s with
  | EmptyString => [EmptyString]
  | String c s' =>
      if Ascii.eqb c (Ascii.ascii_of_nat 10) then EmptyString :: split_lines s'
      else match split_lines s' with
           | l :: ls => String c l :: ls
           | [] => [String c EmptyString]
           end
  end.

End Np.

(* ===================================================================== *)
(** * The script                                                           *)
(* ===================================================================== *)

Module Py.

(** ** Syntax, after Python's [ast] module *)

Inductive unaryop := USub | Not | Invert.
Inductive operator := Add | Sub | Mult | Div | Pow | BitOr | BitAnd.
Inductive cmpop := Eq | NotEq | Lt | Gt.

(** Literals.  A float literal is kept as its decimal text; a numeric
    literal carries its sign. *)
Inductive constant :=
| Int (n : Z)
| Float (text : string)
| Str (s : string)
| Bool (b : bool).

#[local] Unset Elimination Schemes.

Inductive expr :=
| Constant (value : constant)
| Name (id : string)
| List_ (elts : list expr)
| Tuple (elts : list expr)
| Attribute (value : expr) (attr : string)
| Call (func : expr) (args : list expr) (keywords : list (string * expr))
| BinOp (left : expr) (op : operator) (right : expr)
| UnaryOp (op : unaryop) (operand : expr)
| Compare (left : expr) (op : cmpop) (right : expr)
| Subscript (value : expr) (slice : expr)
| Slice (lower upper : option expr)
| IfExp (test body orelse : expr)
| ListComp (elt target iter : expr).

(** Statements; every statement of a block carries its source line.
    [print(...)] is the call of the builtin that it is under Python 3. *)
Inductive stmt :=
| Expr (value : expr)
| Assign (targets : list expr) (value : expr)
| AugAssign (target : expr) (op : operator) (value : expr)
| FunctionDef (name : string) (args : list string) (body : list (nat * stmt))
| Return (value : option expr)
| Import (name : string) (asname : option string)
| ImportFrom (module : string) (names : list string)
| If (test : expr) (body orelse : list (nat * stmt))
| For (target iter : expr) (body : list (nat * stmt))
| While (test : expr) (body : list (nat * stmt))
| Try (body handler : list (nat * stmt))
| Raise (exc : option expr)
| Pass.

#[local] Set Elimination Schemes.

Abbreviation block := (list (nat * stmt)).

Declare Scope py_scope.
Delimit Scope py_scope with py.
Bind Scope py_scope with expr.

Notation "x + y" := (BinOp x Add y) : py_scope.
Notation "x - y" := (BinOp x Sub y) : py_scope.
Notation "x * y" := (BinOp x Mult y) : py_scope.
Notation "x / y" := (BinOp x Div y) : py_scope.

(** Shorthands used by the transcription below. *)
Definition int (n : Z) : expr := Constant (Int n).
Definition flt (text : string) : expr := Constant (Float text).
Definition str (s : string) : expr := Constant (Str s).
Definition ints (ns : list Z) : expr := List_ (map int ns).
Definition flts (ts : list string) : expr := List_ (map flt ts).
Definition strs (ss : list string) : expr := List_ (map str ss).
Definition bools (bs : list bool) : expr := List_ (map (λ b, Constant (Bool b)) bs).
Definition tup (ns : list Z) : expr := Tuple (map int ns).
(** [np.f] and [np.m.f] *)
Definition np (f : string) : expr := Attribute (Name "np") f.
Definition np2 (m f : string) : expr := Attribute (Attribute (Name "np") m) f.
(** [f(args)] and the method call [e.m(args)], without keywords *)
Definition call (f : expr) (args : list expr) : expr := Call f args [].
Definition meth (e : expr) (m : string) (args : list expr) : expr :=
  Call (Attribute e m) args [].
(** [print(e)] *)
Definition print (e : expr) : stmt := Expr (Call (Name "print") [e] []).
(** [x = e] *)
Definition assign (x : string) (e : expr) : stmt := Assign [Name x] e.
(** [a[lo:hi]] with integer bounds *)
Definition slc (lo hi : option Z) : expr := Slice (int <$> lo) (int <$> hi).

Section Script.
Local Open Scope string_scope.
Local Open Scope Z_scope.
Local Open Scope py_scope.

(** The body of [heading] (lines 49-51) *)
Definition heading_body : block :=
  [ (49%nat, Expr (str "Print a nice heading to the console."));
    (50%nat, assign "line" (str "-" * int 60));
    (51%nat, print (str "
" + Name "line" + str "
" + Name "s" + str "
" + Name "line")) ].

(** The body of [numbers_array] (line 228) *)
Definition numbers_array_body : block :=
  [ (228%nat, Return (Some
       (meth (call (np "arange") [Name "nrow" * Name "ncol"]) "reshape"
             [Tuple [Name "nrow"; Name "ncol"]]))) ].

(** The module docstring (lines 1-36) *)
Definition docstring : string := "
Jennifer's scientific computing cheatsheet - arrays and numerical analysis.

Contents:
- numpy & ndarray basics
- Basic operations and functions with ndarrays
- Type conversions
- Basic indexing and slicing
- Boolean indexing
- Fancy indexing
- Conditional logic and array operations
- Transposing arrays and swapping axes
- Linear algebra
- Mathematical and statistical methods
- Sorting
- Uniqueness and set logic
- File input and output with arrays

Each section of this cheatsheet can be copy/pasted into ipython (using
the %paste magic command for indented code) and run separately in an
interactive session.

Many of these code snippets are pilfered / adapted from:
- Python for Data Analysis by Wes McKinney
  https://github.com/pydata/pydata-book

This cheatsheet is part of a set: science_numpy.py, science_plots.py,
science_prettyplots, and science_data.py, covering the following
scientific computing modules, with a focus on atmospheric science
applications:
- numpy:        Numerical python for N-D arrays, linear algebra, etc
- matplotlib:   2-D plots and visualizations
- basemap:      Plotting geographic data
- pandas:       Statistics for tabular (spreadsheet-like data)
- xray:         N-D labeled datasets and netCDF I/O
".

(** The top-level statements of science_numpy.py, each with its line. *)
Definition script : block := map (λ p : Z * stmt, (Z.to_nat p.1, p.2))
  [ (1, Expr (str docstring));
    (40, ImportFrom "__future__" ["division"]);
    (43, Import "numpy" (Some "np"));
    (46, print (str "
Welcome to Jennifer's cheatsheet for scientific computing in Python!"));
    (48, FunctionDef "heading" ["s"] heading_body);
    (53, Expr (call (Name "heading") [str "numpy: N-D arrays, linear algebra, FFT, random numbers
and other numerical operations."]));
    (* ndarray basics *)
    (60, print (str "
An N-D array in numpy is an object of type ndarray, a multi-dimensional
container for homogeneous data (i.e. all elements must be the same type).
"));
    (66, assign "data" (call (np2 "random" "randn") [int 2; int 3]));
    (67, print (Name "data"));
    (70, print (Attribute (Name "data") "dtype"));
    (71, print (Attribute (Name "data") "ndim"));
    (72, print (Attribute (Name "data") "shape"));
    (77, assign "list1" (List_ [int 6; flt "7.5"; int 8; int 0; int 1]));
    (78, assign "data1" (call (np "array") [Name "list1"]));
    (79, print (Name "data1"));
    (80, print (Attribute (Name "data1") "dtype"));
    (82, assign "list2" (List_ [ints [1; 2; 3; 4]; ints [5; 6; 7; 8]]));
    (83, assign "data2" (call (np "array") [Name "list2"]));
    (84, print (Name "data2"));
    (85, print (Attribute (Name "data2") "dtype"));
    (86, print (Attribute (Name "data2") "ndim"));
    (87, print (Attribute (Name "data2") "shape"));
    (90, assign "data1" (Call (np "array") [ints [1; 2; 3]] [("dtype", np "float64")]));
    (91, assign "data2" (Call (np "array") [ints [1; 2; 3]] [("dtype", np "int32")]));
    (92, print (Attribute (Name "data1") "dtype"));
    (93, print (Attribute (Name "data2") "dtype"));
    (96, assign "zeros1" (call (np "zeros") [int 10]));
    (97, assign "zeros2" (call (np "zeros") [tup [3; 6]]));
    (98, assign "empty1" (call (np "empty") [tup [2; 3; 2]]));
    (99, assign "ones1" (call (np "ones") [tup [4; 5]]));
    (102, assign "x1" (call (np "arange") [int 3; int 15; int 2]));
    (103, assign "x2" (call (np "linspace") [int 0; flt "4.5"; int 10]));
    (* Basic operations and functions with ndarrays *)
    (111, assign "arr" (call (np "array")
                      [List_ [flts ["1."; "2."; "3."]; flts ["4."; "5."; "6."]]]));
    (112, print (Name "arr"));
    (113, print (Name "arr" + int 10));
    (114, print (Name "arr" * Name "arr"));
    (115, print (Name "arr" - Name "arr"));
    (116, print (int 1 / Name "arr"));
    (117, print (BinOp (Name "arr") Pow (flt "0.5")));
    (120, assign "x1" (call (np2 "random" "randn") [int 5]));
    (121, assign "x2" (meth (Name "x1") "round" [int 2]));
    (122, print (Name "x1"));
    (123, print (Name "x2"));
    (124, assign "arr" (call (np "array") [flts ["1."; "4."; "6."; "9."]]));
    (125, print (call (np "sqrt") [Name "arr"]));
    (126, print (call (np "exp") [Name "arr"]));
    (127, Assign [Tuple [Name "x"; Name "y"]]
            (Tuple [meth (call (np2 "random" "randn") [int 8]) "round" [int 1];
                    meth (call (np2 "random" "randn") [int 8]) "round" [int 1]]));
    (128, print (Name "x"));
    (129, print (Name "y"));
    (130, print (call (np "maximum") [Name "x"; Name "y"]));
    (131, assign "arr" (meth (call (np2 "random" "randn") [int 7] * int 5) "round" [int 2]));
    (132, print (call (np "modf") [Name "arr"]));
    (135, assign "x1" (call (np "linspace") [flt "0."; flt "9."; int 10]));
    (136, assign "x2" (call (np "arange") [flt "0."; flt "10."]));
    (137, assign "x3" (int 10 * call (np2 "random" "randn") [int 10]));
    (140, assign "comp" (Compare (Name "x1") Eq (Name "x3")));
    (143, assign "comp" (call (np "array_equal") [Name "x1"; Name "x2"]));
    (144, assign "comp" (call (np "array_equal") [Name "x1"; Name "x3"]));
    (* Type conversions *)
    (152, assign "arr" (call (np "array") [ints [1; 2; 3; 4; 5]]));
    (153, assign "float_arr" (meth (Name "arr") "astype" [np "float64"]));
    (154, Expr (call (Name "print") [Attribute (Name "arr") "dtype";
                                     Attribute (Name "float_arr") "dtype"]));
    (156, assign "arr" (call (np "array")
                      [flts ["3.7"; "-1.2"; "-2.6"; "0.5"; "12.9"; "10.1"]]));
    (157, assign "int_arr" (meth (Name "arr") "astype" [np "int32"]));
    (158, print (Name "arr"));
    (159, print (Name "int_arr"));
    (162, assign "numeric_strings"
            (Call (np "array") [strs ["1.25"; "-9.6"; "42"]] [("dtype", np "string_")]));
    (163, assign "arr" (meth (Name "numeric_strings") "astype" [np "float64"]));
    (166, assign "int_array" (call (np "arange") [int 10]));
    (167, assign "float_array"
            (Call (np "array") [flts ["1.0"; "2.5"; "-3.1"]] [("dtype", np "float64")]));
    (168, assign "arr" (meth (Name "int_array") "astype"
                       [Attribute (Name "float_array") "dtype"]));
    (* Basic indexing and slicing *)
    (174, assign "arr" (call (np "arange") [int 10]));
    (175, print (Name "arr"));
    (176, print (Subscript (Name "arr") (int 5)));
    (177, print (Subscript (Name "arr") (slc (Some 5) (Some 8))));
    (178, Assign [Subscript (Name "arr") (slc (Some 5) (Some 8))] (int 12));
    (179, print (Name "arr"));
    (182, assign "arr2d" (call (np "array")
                        [List_ [ints [1; 2; 3]; ints [4; 5; 6]; ints [7; 8; 9]]]));
    (183, print (Subscript (Name "arr2d") (int 2)));
    (184, print (Subscript (Subscript (Name "arr2d") (int 0)) (int 2)));
    (185, print (Subscript (Name "arr2d") (tup [0; 2])));
    (188, assign "arr3d" (call (np "array")
                        [List_ [List_ [ints [1; 2; 3]; ints [4; 5; 6]];
                                List_ [ints [7; 8; 9]; ints [10; 11; 12]]]]));
    (189, print (Name "arr3d"));
    (190, print (Subscript (Name "arr3d") (int 0)));
    (191, print (Subscript (Name "arr3d") (tup [1; 0])));
    (192, assign "old_values" (meth (Subscript (Name "arr3d") (int 0)) "copy" []));
    (193, Assign [Subscript (Name "arr3d") (int 0)] (int 42));
    (194, print (Name "arr3d"));
    (195, Assign [Subscript (Name "arr3d") (int 0)] (Name "old_values"));
    (196, print (Name "arr3d"));
    (199, print (str "Array slices are *views* on the original array, not copies, so if you modify
a view, the source array is modified too! To copy a slice, use .copy()
"));
    (203, assign "arr" (call (np "arange") [int 10]));
    (204, print (Name "arr"));
    (205, assign "slice1" (Subscript (Name "arr") (slc (Some 2) (Some 7))));
    (206, print (Name "slice1"));
    (207, Assign [Subscript (Name "slice1") (slc None (Some 2))] (int (-42)));
    (208, print (Name "slice1"));
    (209, print (Name "arr"));
    (212, assign "arr" (call (np "arange") [int 10]));
    (213, print (Name "arr"));
    (214, assign "slice1" (meth (Subscript (Name "arr") (slc (Some 2) (Some 7))) "copy" []));
    (215, print (Name "slice1"));
    (216, Assign [Subscript (Name "slice1") (slc None (Some 2))] (int (-42)));
    (217, print (Name "slice1"));
    (218, print (Name "arr"));
    (* Boolean indexing *)
    (224, assign "cats" (call (np "array")
                       [strs ["tabby"; "calico"; "siamese"; "tabby"; "siamese";
                              "calico"; "calico"]]));
    (227, FunctionDef "numbers_array" ["nrow"; "ncol"] numbers_array_body);
    (230, assign "data" (call (Name "numbers_array") [int 7; int 4]));
    (231, AugAssign (Subscript (Name "data") (Tuple [Slice None None; int 2])) Sub (int 20));
    (232, print (Name "cats"));
    (233, print (Name "data"));
    (235, print (Compare (Name "cats") Eq (str "tabby")));
    (236, print (Subscript (Name "data") (Compare (Name "cats") Eq (str "tabby"))));
    (237, print (Subscript (Name "data")
                   (Tuple [Compare (Name "cats") Eq (str "tabby"); slc (Some 2) None])));
    (238, print (Subscript (Name "data")
                   (Tuple [Compare (Name "cats") Eq (str "tabby"); int 3])));
    (241, print (Subscript (Name "data") (Compare (Name "cats") NotEq (str "tabby"))));
    (242, print (Subscript (Name "data")
                   (UnaryOp USub (Compare (Name "cats") Eq (str "tabby")))));
    (243, assign "mask" (BinOp (Compare (Name "cats") Eq (str "tabby")) BitOr
                            (Compare (Name "cats") Eq (str "siamese"))));
    (244, print (Name "mask"));
    (245, print (Subscript (Name "data") (Name "mask")));
    (248, Assign [Subscript (Name "data") (Compare (Name "data") Lt (int 0))] (int 0));
    (249, print (Name "data"));
    (250, Assign [Subscript (Name "data") (Compare (Name "cats") NotEq (str "calico"))]
            (int (-5)));
    (251, print (Name "data"));
    (255, assign "subset" (Subscript (Name "data") (Compare (Name "cats") Eq (str "calico"))));
    (256, print (Name "subset"));
    (257, Assign [Subscript (Name "subset") (int 0)] (int 10));
    (258, print (Name "subset"));
    (259, print (Name "data"));
    (* Fancy indexing *)
    (265, assign "a" (call (Name "numbers_array") [int 8; int 4]));
    (266, print (Name "a"));
    (267, print (Subscript (Name "a") (ints [4; 0; 2])));
    (268, print (Subscript (Name "a") (ints [-1; -3])));
    (269, print (Subscript (Name "a") (Tuple [ints [1; 5; 7; 2]; ints [0; 3; 1; 2]])));
    (270, print (Subscript (Subscript (Name "a") (ints [1; 5; 7; 2]))
                   (Tuple [Slice None None; ints [0; 2]])));
    (273, print (Subscript (Name "a") (call (np "ix_") [ints [1; 3]; ints [2; 0]])));
    (* Conditional logic and array operations *)
    (279, assign "xarr" (call (np "array") [flts ["1.1"; "1.2"; "1.3"; "1.4"; "1.5"]]));
    (280, assign "yarr" (call (np "array") [flts ["2.1"; "2.2"; "2.3"; "2.4"; "2.5"]]));
    (281, assign "cond" (call (np "array") [bools [true; false; true; true; false]]));
    (282, assign "result"
            (ListComp (IfExp (Name "c") (Name "x") (Name "y"))
                      (Tuple [Name "x"; Name "y"; Name "c"])
                      (call (Name "zip") [Name "xarr"; Name "yarr"; Name "cond"])));
    (283, print (Name "result"));
    (284, assign "result" (call (np "where") [Name "cond"; Name "xarr"; Name "yarr"]));
    (285, print (Name "result"));
    (287, assign "arr" (meth (call (np2 "random" "randn") [int 4; int 4]) "round" [int 1]));
    (288, print (Name "arr"));
    (289, print (call (np "where") [Compare (Name "arr") Gt (int 0); int 2; int (-2)]));
    (290, print (call (np "where") [Compare (Name "arr") Gt (int 0); int 2; Name "arr"]));
    (* Transposing arrays and swapping axes *)
    (296, assign "arr" (call (Name "numbers_array") [int 3; int 5]));
    (297, print (Name "arr"));
    (298, print (Attribute (Name "arr") "T"));
    (300, assign "arr" (meth (call (np "arange") [int 16]) "reshape" [tup [2; 2; 4]]));
    (301, print (Name "arr"));
    (302, print (meth (Name "arr") "transpose" [tup [1; 0; 2]]));
    (303, print (meth (Name "arr") "swapaxes" [int 1; int 2]));
    (* Linear algebra *)
    (309, assign "x" (call (np "array")
                    [List_ [flts ["1."; "2."; "3."]; flts ["4."; "5."; "6."]]]));
    (310, assign "y" (call (np "array")
                    [List_ [flts ["6."; "23."]; ints [-1; 7]; ints [8; 9]]]));
    (311, print (meth (Name "x") "dot" [Name "y"]));
    (312, print (call (np "dot") [Name "x"; Name "y"]));
    (314, assign "X" (meth (call (np2 "random" "randn") [int 5; int 5]) "round" [int 1]));
    (315, assign "mat" (meth (Attribute (Name "X") "T") "dot" [Name "X"]));
    (316, assign "inv" (call (np2 "linalg" "inv") [Name "mat"]));
    (317, print (meth (Name "mat") "round" [int 2]));
    (318, print (meth (Name "inv") "round" [int 2]));
    (319, print (meth (meth (Name "mat") "dot" [Name "inv"]) "round" [int 2]));
    (* Mathematical and statistical methods *)
    (325, assign "arr" (meth (call (np2 "random" "randn") [int 5; int 4]) "round" [int 2]));
    (326, print (meth (Name "arr") "mean" []));
    (327, print (call (np "mean") [Name "arr"]));
    (328, print (Call (Attribute (Name "arr") "mean") [] [("axis", int 0)]));
    (330, print (meth (Name "arr") "sum" []));
    (331, print (Call (Attribute (Name "arr") "sum") [] [("axis", int 1)]));
    (332, print (meth (Name "arr") "sum" [int 1]));
    (334, assign "arr" (call (np "array")
                      [List_ [ints [0; 1; 2]; ints [3; 4; 5]; ints [6; 7; 8]]]));
    (335, print (meth (Name "arr") "cumsum" [int 0]));
    (336, print (meth (Name "arr") "cumprod" [int 1]));
    (339, assign "arr" (call (np2 "random" "randn") [int 100]));
    (340, assign "npos" (meth (Compare (Name "arr") Gt (int 0)) "sum" []));
    (342, assign "bools" (call (np "array") [bools [false; false; true; false]]));
    (343, Expr (meth (Name "bools") "any" []));
    (344, Expr (meth (Name "bools") "all" []));
    (* Sorting *)
    (350, assign "arr" (meth (call (np2 "random" "randn") [int 8]) "round" [int 1]));
    (351, print (Name "arr"));
    (352, Expr (meth (Name "arr") "sort" []));
    (353, print (Name "arr"));
    (355, assign "arr" (meth (call (np2 "random" "randn") [int 5; int 3]) "round" [int 1]));
    (356, print (Name "arr"));
    (357, Expr (meth (Name "arr") "sort" [int 1]));
    (358, print (Name "arr"));
    (360, assign "large_arr" (call (np2 "random" "randn") [int 1000]));
    (361, Expr (meth (Name "large_arr") "sort" []));
    (362, assign "quant5"
            (Subscript (Name "large_arr")
               (call (Name "int") [flt "0.05" * call (Name "len") [Name "large_arr"]])));
    (363, print (Name "quant5"));
    (* Uniqueness and set logic *)
    (370, assign "names" (call (np "array")
                        [strs ["Bob"; "Joe"; "Will"; "Bob"; "Will"; "Joe"; "Joe"]]));
    (371, print (call (np "unique") [Name "names"]));
    (372, print (call (Name "set") [Name "names"]));
    (373, print (call (Name "sorted") [call (np "unique") [Name "names"]]));
    (374, assign "ints" (call (np "array") [ints [3; 3; 3; 2; 2; 1; 1; 4; 4]]));
    (375, print (call (np "unique") [Name "ints"]));
    (378, assign "values" (call (np "array") [ints [6; 0; 0; 3; 2; 5; 6]]));
    (379, assign "in_val" (call (np "in1d") [Name "values"; ints [2; 3; 6]]));
    (* File input and output with arrays *)
    (386, assign "arr" (call (np "arange") [int 10]));
    (387, Expr (call (np "save") [str "some_array"; Name "arr"]));
    (388, Expr (call (np "load") [str "some_array.npy"])) ].

End Script.

(** ** Static structure *)

Definition lines (b : block) : list nat := fst <$> b.

(** An expression and all its subexpressions, outermost first. *)
Fixpoint nodes (e : expr) : list expr :=
  e :: match e with
       | Constant _ | Name _ => []
       | List_ es | Tuple es => flat_map nodes es
       | Attribute v _ => nodes v
       | Call f args kws =>
           nodes f ++ flat_map nodes args
                   ++ flat_map (λ kw, match kw with (_, v) => nodes v end) kws
       | BinOp l _ r | Compare l _ r => nodes l ++ nodes r
       | UnaryOp _ x => nodes x
       | Subscript v i => nodes v ++ nodes i
       | Slice lo hi =>
           match lo with Some x => nodes x | None => [] end
           ++ match hi with Some x => nodes x | None => [] end
       | IfExp t b o => nodes t ++ nodes b ++ nodes o
       | ListComp e t i => nodes e ++ nodes t ++ nodes i
       end.

(** The expressions a statement evaluates when it is executed itself: a
    [def] evaluates none (its body runs at the calls), a compound statement
    its test. *)
Definition own_exprs (s : stmt) : list expr :=
  match s with
  | Expr e => [e]
  | Assign ts v => v :: ts
  | AugAssign t _ v => [t; v]
  | Return (Some e) | Raise (Some e) => [e]
  | If t _ _ | While t _ => [t]
  | For t i _ => [i; t]
  | _ => []
  end.

(** Every statement of a block, at any depth, in source order. *)
Fixpoint substmts (s : stmt) : list (nat * stmt) :=
  let deep := fix deep (b : block) : list (nat * stmt) :=
    match b with
    | [] => []
    | (l, s') :: b' => (l, s') :: substmts s' ++ deep b'
    end in
  match s with
  | FunctionDef _ _ b | For _ _ b | While _ b => deep b
  | If _ b1 b2 | Try b1 b2 => deep b1 ++ deep b2
  | _ => []
  end.

Definition statements (b : block) : list (nat * stmt) :=
  flat_map (λ ls, ls :: substmts ls.2) b.

(** The sites of a file: every expression node of every statement, with
    the line of its statement. *)
Definition sites (b : block) : list (nat * expr) :=
  flat_map (λ ls : nat * stmt, map (pair ls.1) (flat_map nodes (own_exprs ls.2)))
           (statements b).

(** Statements that neither branch, loop nor leave: what a linear script
    is made of. *)
Definition simple (s : stmt) : bool :=
  match s with
  | Expr _ | Assign _ _ | AugAssign _ _ _ | FunctionDef _ _ _
  | Import _ _ | ImportFrom _ _ | Pass => true
  | _ => false
  end.

Definition straight_line (b : block) : bool := forallb (λ ls, simple ls.2) b.

(** Lines of the [try] statements, at any depth. *)
Definition handlers (b : block) : list nat :=
  flat_map (λ ls : nat * stmt, match ls.2 with Try _ _ => [ls.1] | _ => [] end)
           (statements b).

(** Modules named by the [import] statements, at any depth. *)
Definition imported_modules (b : block) : list string :=
  flat_map (λ ls : nat * stmt,
              match ls.2 with
              | Import m _ | ImportFrom m _ => [m]
              | _ => []
              end)
           (statements b).

(** Names of the functions the file defines. *)
Definition defined_functions (b : block) : list string :=
  flat_map (λ ls : nat * stmt,
              match ls.2 with FunctionDef f _ _ => [f] | _ => [] end)
           (statements b).

(** ** Library values

    A pass over the statements in file order that tracks which names hold
    the library module or a value made by it. *)

Definition mem (x : string) (l : list string) : bool := existsb (String.eqb x) l.
Definition drop_name (x : string) (env : list string) : list string :=
  filter (λ y, negb (String.eqb x y)) env.

(** [e] is the library module, or a value obtained from it: through an
    attribute, a call, an index or an operator. *)
Fixpoint lib_valued (env : list string) (e : expr) : bool :=
  match e with
  | Name x => mem x env
  | Attribute v _ | Subscript v _ | UnaryOp _ v => lib_valued env v
  | Call f _ _ => lib_valued env f
  | BinOp l _ r | Compare l _ r => lib_valued env l || lib_valued env r
  | _ => false
  end.

(** [e] names the library module or one of its submodules: [np],
    [np.random], [np.linalg]. *)
Fixpoint module_path (mods : list string) (e : expr) : bool :=
  match e with
  | Name x => mem x mods
  | Attribute v _ => module_path mods v
  | _ => false
  end.

Inductive kind :=
| LibraryCall              (* np.f(...), np.m.f(...) *)
| MethodCall               (* a.f(...) on a library value *)
| ArrayOperator            (* operator or index applied to a library value *)
| BuiltinCall (f : string) (* f(...), f not defined in the file *)
| LocalCall (f : string)   (* f(...), f defined in the file *)
| OtherCall                (* any other call *)
| LocalLogic               (* operator, index, conditional expression or
                              comprehension on values that are not the library's *)
| Data.                    (* names, literals, containers, attributes, slices *)

#[global] Instance kind_eq_dec : EqDecision kind.
Proof. solve_decision. Defined.

Definition classify (mods env funs : list string) (e : expr) : kind :=
  match e with
  | Call (Name f) _ _ => if mem f funs then LocalCall f else BuiltinCall f
  | Call (Attribute r _) _ _ =>
      if module_path mods r then LibraryCall
      else if lib_valued env r then MethodCall
      else OtherCall
  | Call _ _ _ => OtherCall
  | BinOp _ _ _ | UnaryOp _ _ | Compare _ _ _ | Subscript _ _ =>
      if lib_valued env e then ArrayOperator else LocalLogic
  | IfExp _ _ _ | ListComp _ _ _ => LocalLogic
  | _ => Data
  end.

(** The values a function body returns. *)
Definition returns (body : block) : list expr :=
  flat_map (λ ls : nat * stmt, match ls.2 with Return (Some e) => [e] | _ => [] end)
           (statements body).

(** The typing environment: names of library modules, names holding
    library values (functions returning one among them), functions defined. *)
Record tenv := Tenv { mods : list string; vals : list string; funs : list string }.

Definition bind_name (x : string) (is_lib : bool) (env : list string) : list string :=
  if is_lib then x :: drop_name x env else drop_name x env.

Fixpoint bind_target (env0 : list string) (t v : expr) (env : list string)
  : list string :=
  match t, v with
  | Name x, _ => bind_name x (lib_valued env0 v) env
  | Tuple ts, Tuple vs =>
      (fix pairwise (ts vs : list expr) (env : list string) :=
         match ts, vs with
         | t' :: ts', v' :: vs' => pairwise ts' vs' (bind_target env0 t' v' env)
         | _, _ => env
         end) ts vs env
  | Tuple ts, _ =>
      (fix each (ts : list expr) (env : list string) :=
         match ts with
         | t' :: ts' => each ts' (bind_target env0 t' v env)
         | [] => env
         end) ts env
  | _, _ => env
  end.

(** The environment after one statement executed at top level. *)
Definition tstep (library : string) (s : stmt) (E : tenv) : tenv :=
  match s with
  | Import m a =>
      if String.eqb m library
      then let x := default m a in
           Tenv (x :: mods E) (x :: vals E) (funs E)
      else E
  | FunctionDef f params body =>
      let inner := fold_right drop_name (vals E) params in
      let rs := returns body in
      let is_lib := negb (Nat.eqb (length rs) 0) && forallb (lib_valued inner) rs in
      Tenv (mods E) (bind_name f is_lib (vals E)) (f :: funs E)
  | Assign ts v =>
      Tenv (mods E) (fold_right (λ t env, bind_target (vals E) t v env) (vals E) ts)
           (funs E)
  | _ => E
  end.

(** The kinds of the sites of a statement, its nested blocks included;
    inside a [def] the parameters shadow the names of the environment. *)
Definition stmt_kinds (E : tenv) (l : nat) (s : stmt) : list (nat * kind) :=
  let inner :=
    match s with
    | FunctionDef _ params _ => fold_right drop_name (vals E) params
    | _ => vals E
    end in
  map (λ le : nat * expr, (le.1, classify (mods E) inner (funs E) le.2))
      (sites [(l, s)]).

(** The kind of every site of a file, in file order. *)
Fixpoint kinds_from (library : string) (E : tenv) (b : block) : list (nat * kind) :=
  match b with
  | [] => []
  | (l, s) :: b' =>
      let E' := tstep library s E in
      (* a [def] is classified with its own name bound, statements before
         their effect on the environment *)
      stmt_kinds (match s with FunctionDef _ _ _ => E' | _ => E end) l s
      ++ kinds_from library E' b'
  end.

Definition library : string := "numpy".

Definition kinds (b : block) : list (nat * kind) :=
  kinds_from library (Tenv [] [] []) b.

(** Does a site compute something, as opposed to naming or holding data? *)
Definition computes (k : kind) : bool :=
  match k with Data => false | _ => true end.

(** Is it the library that computes at the site? *)
Definition by_library (k : kind) : bool :=
  match k with
  | LibraryCall | MethodCall | ArrayOperator => true
  | _ => false
  end.

(** ** The usage categories the cheatsheet covers *)

Inductive category :=
| ArrayCreation | Indexing | Slicing | LinearAlgebra
| Aggregation | Sorting | SetOperations | FileIO.

(** Names bound to the library module by the [import] statements. *)
Definition aliases (b : block) : list string :=
  flat_map (λ ls : nat * stmt,
              match ls.2 with
              | Import m a => if String.eqb m library then [default m a] else []
              | _ => []
              end)
           (statements b).

(** The category of a library function [np.f] or [np.m.f], by its name. *)
Definition function_category (f : string) : option category :=
  if mem f ["array"; "zeros"; "ones"; "empty"; "arange"; "linspace"; "randn"]
  then Some ArrayCreation
  else if mem f ["dot"; "inv"] then Some LinearAlgebra
  else if mem f ["mean"] then Some Aggregation
  else if mem f ["unique"; "in1d"] then Some SetOperations
  else if mem f ["save"; "load"] then Some FileIO
  else None.

(** The category of an array method [a.f], by its name. *)
Definition method_category (f : string) : option category :=
  if mem f ["dot"] then Some LinearAlgebra
  else if mem f ["mean"; "sum"; "cumsum"; "cumprod"; "any"; "all"]
  then Some Aggregation
  else if mem f ["sort"] then Some Sorting
  else None.

(** An index with a slice in it, [a[lo:hi]] or [a[i, lo:hi]], slices; any
    other index picks elements. *)
Definition has_slice (i : expr) : bool :=
  match i with
  | Slice _ _ => true
  | Tuple es => existsb (λ e, match e with Slice _ _ => true | _ => false end) es
  | _ => false
  end.

Definition category_of (mods : list string) (e : expr) : option category :=
  match e with
  | Call (Attribute r f) _ _ =>
      if module_path mods r then function_category f else method_category f
  | Subscript _ i => Some (if has_slice i then Slicing else Indexing)
  | _ => None
  end.

(** The categories of the operations a statement performs itself. *)
Definition categories (mods : list string) (s : stmt) : list category :=
  omap (category_of mods) (flat_map nodes (own_exprs s)).

(** ** Execution

    Statements are executed in order.  What the library does is outside the
    file, so a run is taken relative to an oracle: whether the statement at
    a line raises, what the test at a line evaluates to, how often the loop
    at a line iterates.  The state keeps what the properties below are about: the
    names bound to the library module, the functions defined, the files
    written, and the lines of the statements begun, in order. *)

Inductive outcome := Normal | Raised (line : nat) | Returned.

Record oracle := Oracle {
  raises : nat → bool;
  truth : nat → bool;
  iterations : nat → nat
}.

Record state := State {
  modules : list string;
  defs : list (string * block);
  written : list string;
  trace : list nat
}.

Definition init : state := State [] [] [] [].

Definition visit (l : nat) (st : state) : state :=
  State (modules st) (defs st) (written st) (trace st ++ [l]).

Definition ends_with (suffix s : string) : bool :=
  let n := String.length s in
  let k := String.length suffix in
  (k <=? n) && String.eqb (String.substring (n - k) k s) suffix.

(** [np.save(file, arr)] writes to [file], with [.npy] appended when the
    name does not end in it already. *)
Definition np_save_path (file : string) : string :=
  if ends_with ".npy" file then file else String.append file ".npy".

(** The file written by a node, when it is a call [np.save("...", _)]. *)
Definition saved (mods : list string) (e : expr) : list string :=
  match e with
  | Call (Attribute (Name m) f) (Constant (Str file) :: _) _ =>
      if mem m mods && String.eqb f "save" then [np_save_path file] else []
  | _ => []
  end.

Definition lookup_def (f : string) (ds : list (string * block)) : option block :=
  snd <$> find (λ d : string * block, String.eqb f d.1) ds.

(** The files written when [e] is evaluated: by the calls of [np.save] in
    it and, through the calls of functions of the file, by those in their
    bodies. *)
Fixpoint writes (fuel : nat) (mods : list string) (ds : list (string * block))
    (e : expr) : list string :=
  flat_map
    (λ n, saved mods n ++
          match fuel, n with
          | S fuel', Call (Name f) _ _ =>
              match lookup_def f ds with
              | Some body =>
                  flat_map (writes fuel' mods ds)
                           (flat_map (λ ls : nat * stmt, own_exprs ls.2) (statements body))
              | None => []
              end
          | _, _ => []
          end)
    (nodes e).

(** Can the statement raise?  A literal, a [def] and [pass] cannot. *)
Definition may_raise (s : stmt) : bool :=
  match s with
  | Expr (Constant _) | FunctionDef _ _ _ | Pass => false
  | _ => true
  end.

(** The effect of a simple statement that completes. *)
Definition effect (s : stmt) (st : state) : state :=
  let ws := flat_map (writes (S (length (defs st))) (modules st) (defs st))
                     (own_exprs s) in
  let ms := match s with
            | Import m a =>
                if String.eqb m library then default m a :: modules st
                else modules st
            | _ => modules st
            end in
  let ds := match s with
            | FunctionDef f _ body => (f, body) :: defs st
            | _ => defs st
            end in
  State ms ds (written st ++ ws) (trace st).

(** One simple statement: it is begun, then raises or takes effect. *)
Definition exec_simple (o : oracle) (l : nat) (s : stmt) (st : state)
  : outcome * state :=
  if may_raise s && raises o l
  then (Raised l, visit l st)
  else (Normal, effect s (visit l st)).

Fixpoint exec (o : oracle) (l : nat) (s : stmt) (st : state) {struct s}
  : outcome * state :=
  let block := fix block (b : list (nat * stmt)) (st : state) : outcome * state :=
    match b with
    | [] => (Normal, st)
    | (l', s') :: b' =>
        match exec o l' s' st with
        | (Normal, st') => block b' st'
        | r => r
        end
    end in
  let loop := fix loop (n : nat) (body : state → outcome * state) (st : state)
      : outcome * state :=
    match n with
    | 0 => (Normal, st)
    | S n' => match body st with
              | (Normal, st') => loop n' body st'
              | r => r
              end
    end in
  match s with
  | Return _ => (Returned, visit l st)
  | Raise _ => (Raised l, visit l st)
  | If _ body orelse =>
      if raises o l then (Raised l, visit l st)
      else if truth o l then block body (effect s (visit l st))
      else block orelse (effect s (visit l st))
  | For _ _ body | While _ body =>
      if raises o l then (Raised l, visit l st)
      else loop (iterations o l) (block body) (effect s (visit l st))
  | Try body handler =>
      match block body (visit l st) with
      | (Raised _, st') => block handler st'
      | r => r
      end
  | _ => exec_simple o l s st
  end.

(** A block: its statements in order, up to the first that does not
    complete normally. *)
Fixpoint exec_block (o : oracle) (b : block) (st : state) : outcome * state :=
  match b with
  | [] => (Normal, st)
  | (l, s) :: b' =>
      match exec o l s st with
      | (Normal, st') => exec_block o b' st'
      | r => r
      end
  end.

(** A run of a file. *)
Definition run (o : oracle) (b : block) : outcome * state := exec_block o b init.

(** The files on disk after a run that started with the files [fs]. *)
Definition disk (fs : gset string) (st : state) : gset string :=
  fs ∪ list_to_set (written st).

(** The file of line 387 as [np.save] names it. *)
Definition some_array : string := np_save_path "some_array".

(** The files written are none, or [some_array.npy] alone. *)
Definition writes_at_most_some_array (st : state) : bool :=
  match written st with
  | [] => true
  | [f] => String.eqb f some_array
  | _ => false
  end.

(** The run of a linear block in which nothing raises. *)
Definition step (ls : nat * stmt) (st : state) : state := effect ls.2 (visit ls.1 st).
Definition steps (b : block) (st : state) : state := fold_left (λ st ls, step ls st) b st.

(** The first statement of a block that raises under [o]: its position and
    its line. *)
Fixpoint first_raise (o : oracle) (b : block) : option (nat * nat) :=
  match b with
  | [] => None
  | (l, s) :: b' =>
      if may_raise s && raises o l then Some (0, l)
      else (λ kl : nat * nat, (S kl.1, kl.2)) <$> first_raise o b'
  end.

(** Ways out of a script before its end: a top-level [return] or [raise]
    statement, or a call of [exit], [quit], [sys.exit] or [os._exit]
    anywhere.  The lines of those a file has. *)
Definition leaves (e : expr) : bool :=
  match e with
  | Call (Name f) _ _ => mem f ["exit"; "quit"]
  | Call (Attribute (Name m) f) _ _ =>
      (String.eqb m "sys" && String.eqb f "exit")
      || (String.eqb m "os" && String.eqb f "_exit")
  | _ => false
  end.

Definition exits (b : block) : list nat :=
  flat_map (λ ls : nat * stmt,
              match ls.2 with Return _ | Raise _ => [ls.1] | _ => [] end) b
  ++ map fst (filter (λ le : nat * expr, leaves le.2) (sites b)).

(** Python starts a thread or a process through one of these modules of
    its standard library; a file reaches a module by importing it, or by
    loading code through [__import__], [exec] or [eval]. *)
Definition concurrency_modules : list string :=
  ["threading"; "_thread"; "thread"; "multiprocessing"; "subprocess";
   "concurrent"; "concurrent.futures"; "asyncio"; "os"].

Definition loads_code (e : expr) : bool :=
  match e with
  | Call (Name f) _ _ => mem f ["__import__"; "exec"; "eval"]
  | _ => false
  end.

(** Lines at which a file could start a thread or a process. *)
Definition spawns (b : block) : list nat :=
  flat_map (λ ls : nat * stmt,
              match ls.2 with
              | Import m _ | ImportFrom m _ =>
                  if mem m concurrency_modules then [ls.1] else []
              | _ => []
              end)
           (statements b)
  ++ map fst (filter (λ le : nat * expr, loads_code le.2) (sites b)).

(** What the script computes without the library: the builtins it calls,
    its own helpers, and the lines with logic of its own. *)
Definition builtins_used : list string :=
  ["print"; "zip"; "int"; "len"; "set"; "sorted"].
Definition helpers : list string := ["heading"; "numbers_array"].
Definition local_logic_lines : list nat := [50; 51; 228; 282; 362].

(** A site is accounted for: it holds data, the library computes there, or
    it is one of the exceptions above. *)
Definition accounted (lk : nat * kind) : bool :=
  match lk.2 with
  | Data | LibraryCall | MethodCall | ArrayOperator => true
  | BuiltinCall f => mem f builtins_used
  | LocalCall f => mem f helpers
  | LocalLogic => existsb (Nat.eqb lk.1) local_logic_lines
  | OtherCall => false
  end.

(** Oracles: the library never raises; it raises at one line. *)
Definition quiet : oracle := Oracle (λ _, false) (λ _, true) (λ _, 0).
Definition raising_at (line : nat) : oracle :=
  Oracle (Nat.eqb line) (λ _, true) (λ _, 0).

(** ** Names: what the statements read and bind *)

(** The names an assignment target binds. *)
Fixpoint target_names (t : expr) : list string :=
  match t with
  | Name x => [x]
  | Tuple ts | List_ ts => flat_map target_names ts
  | _ => []
  end.

(** The names an expression reads; the targets of a comprehension are bound
    in its element. *)
Fixpoint reads (e : expr) : list string :=
  match e with
  | Constant _ => []
  | Name x => [x]
  | List_ es | Tuple es => flat_map reads es
  | Attribute v _ => reads v
  | Call f args kws =>
      reads f ++ flat_map reads args
              ++ flat_map (λ kw, match kw with (_, v) => reads v end) kws
  | BinOp l _ r | Compare l _ r => reads l ++ reads r
  | UnaryOp _ x => reads x
  | Subscript v i => reads v ++ reads i
  | Slice lo hi =>
      match lo with Some x => reads x | None => [] end
      ++ match hi with Some x => reads x | None => [] end
  | IfExp t b o => reads t ++ reads b ++ reads o
  | ListComp e t i =>
      reads i ++ filter (λ x, negb (mem x (target_names t))) (reads e)
  end.

(** The names read by an assignment to the target [t]: none for a name,
    the array and the index for [a[i] = ...]. *)
Fixpoint target_reads (t : expr) : list string :=
  match t with
  | Name _ => []
  | Tuple ts | List_ ts => flat_map target_reads ts
  | _ => reads t
  end.

Definition stmt_reads (s : stmt) : list string :=
  match s with
  | Expr e => reads e
  | Assign ts v => reads v ++ flat_map target_reads ts
  | AugAssign t _ v => reads t ++ reads v
  | Return (Some e) | Raise (Some e) => reads e
  | If t _ _ | While t _ => reads t
  | For t i _ => reads i ++ target_reads t
  | _ => []
  end.

Definition stmt_binds (s : stmt) : list string :=
  match s with
  | Assign ts _ => flat_map target_names ts
  | AugAssign t _ _ => target_names t
  | FunctionDef f _ _ => [f]
  | Import m a => [default m a]
  | ImportFrom _ names => names
  | For t _ _ => target_names t
  | _ => []
  end.

(** Python's built-in functions. *)
Definition python_builtins : list string :=
  ["abs"; "all"; "any"; "ascii"; "bin"; "bool"; "bytearray"; "bytes";
   "callable"; "chr"; "classmethod"; "compile"; "complex"; "delattr"; "dict";
   "dir"; "divmod"; "enumerate"; "eval"; "exec"; "filter"; "float"; "format";
   "frozenset"; "getattr"; "globals"; "hasattr"; "hash"; "help"; "hex"; "id";
   "input"; "int"; "isinstance"; "issubclass"; "iter"; "len"; "list";
   "locals"; "map"; "max"; "memoryview"; "min"; "next"; "object"; "oct";
   "open"; "ord"; "pow"; "print"; "property"; "range"; "repr"; "reversed";
   "round"; "set"; "setattr"; "slice"; "sorted"; "staticmethod"; "str"; "sum";
   "super"; "tuple"; "type"; "vars"; "zip"; "__import__"].

(** The reads of names that are neither known nor bound by an earlier
    statement, with their lines.  The body of a [def] is checked where it
    is defined, with the function, its parameters and its own earlier
    bindings known. *)
Fixpoint unbound_in (known : list string) (l : nat) (s : stmt) {struct s}
  : list (nat * string) :=
  let scan := fix scan (known : list string) (b : list (nat * stmt))
      : list (nat * string) :=
    match b with
    | [] => []
    | (l', s') :: b' => unbound_in known l' s' ++ scan (stmt_binds s' ++ known) b'
    end in
  map (pair l) (filter (λ x, negb (mem x known)) (stmt_reads s))
  ++ match s with
     | FunctionDef f params body => scan (f :: params ++ known) body
     | If _ b1 b2 | Try b1 b2 => scan known b1 ++ scan known b2
     | For t _ body => scan (target_names t ++ known) body
     | While _ body => scan known body
     | _ => []
     end.

Fixpoint unbound (known : list string) (b : block) : list (nat * string) :=
  match b with
  | [] => []
  | (l, s) :: b' => unbound_in known l s ++ unbound (stmt_binds s ++ known) b'
  end.

(** The functions a file defines, with the number of their parameters. *)
Definition signatures (b : block) : list (string * nat) :=
  flat_map (λ ls : nat * stmt,
              match ls.2 with
              | FunctionDef f params _ => [(f, length params)]
              | _ => []
              end)
           (statements b).

(** Lines of the calls of a function of the file with another number of
    arguments than it has parameters. *)
Definition arity_errors (b : block) : list nat :=
  flat_map (λ le : nat * expr,
              match le.2 with
              | Call (Name f) args kws =>
                  match find (λ fn : string * nat, String.eqb f fn.1) (signatures b) with
                  | Some (_, n) =>
                      if Nat.eqb (length args + length kws) n then [] else [le.1]
                  | None => []
                  end
              | _ => []
              end)
           (sites b).

(** Lines of the top-level statements that bind a name again that an
    [import] or a [def] has bound before, or the name of a builtin. *)
Fixpoint rebinds (protected : list string) (b : block) : list nat :=
  match b with
  | [] => []
  | (l, s) :: b' =>
      (if existsb (λ x, mem x protected) (stmt_binds s) then [l] else [])
      ++ rebinds (match s with
                  | Import _ _ | ImportFrom _ _ | FunctionDef _ _ _ =>
                      stmt_binds s ++ protected
                  | _ => protected
                  end) b'
  end.

(** ** Files read *)

(** The file read by a node, when it is a call [np.load("...")]. *)
Definition loaded (mods : list string) (e : expr) : list string :=
  match e with
  | Call (Attribute (Name m) f) (Constant (Str file) :: _) _ =>
      if mem m mods && String.eqb f "load" then [file] else []
  | _ => []
  end.

(** The files the top-level statements read, each with the line of its
    statement. *)
Definition file_reads (b : block) : list (nat * string) :=
  let mods := aliases b in
  flat_map (λ ls : nat * stmt,
              map (pair ls.1)
                  (flat_map (loaded mods) (flat_map nodes (own_exprs ls.2))))
           b.

(** Every file read by a statement begun so far has been written. *)
Definition reads_what_was_written (b : block) (st : state) : bool :=
  forallb (λ lf : nat * string,
             negb (existsb (Nat.eqb lf.1) (trace st)) || mem lf.2 (written st))
          (file_reads b).

End Py.

(* ===================================================================== *)
(** * Properties of the array operations                                   *)
(* ===================================================================== *)

Section ArrayValues.

Lemma upto_length n : length (Np.upto n) = n.
Proof. unfold Np.upto. by rewrite length_fmap, length_seq. Qed.

Lemma upto_lookup n k : k < n → Np.upto n !! k = Some (Z.of_nat k).
Proof.
  intros Hk. unfold Np.upto.
  by rewrite list_lookup_fmap, lookup_seq_lt.
Qed.

(** The dimensions the constructor accepts: fewer than [2^60] items of 8
    bytes, counted over the dimensions that are not 0. *)
Lemma representable_1 (n : nat) :
  Np.representable [n] = true ↔ (N.of_nat n < 2 ^ 60)%N.
Proof.
  unfold Np.representable, Np.nbytes, Np.itemsize, Np.max_intp. simpl.
  rewrite N.leb_le. case_decide as Hn; [subst|]; simpl; lia.
Qed.

Lemma representable_2 (n m : nat) :
  Np.representable [n; m] = true
  ↔ (N.of_nat n < 2 ^ 60 ∧ N.of_nat m < 2 ^ 60
     ∧ N.of_nat n * N.of_nat m < 2 ^ 60)%N.
Proof.
  unfold Np.representable, Np.nbytes, Np.itemsize, Np.max_intp. simpl.
  rewrite N.leb_le.
  destruct (decide (n = 0)) as [->|Hn], (decide (m = 0)) as [->|Hm]; simpl.
  - lia.
  - lia.
  - lia.
  - assert (1 ≤ N.of_nat n)%N by lia. assert (1 ≤ N.of_nat m)%N by lia. nia.
Qed.

Lemma arange_Some (mem : N) (n : nat) (xs : list Z) :
  Np.arange mem n = Some xs
  ↔ xs = Np.upto n ∧ (N.of_nat n < 2 ^ 60)%N ∧ (8 * N.of_nat n ≤ mem)%N.
Proof.
  unfold Np.arange, Np.itemsize.
  destruct (Np.representable [n]) eqn:Hr; simpl.
  - apply representable_1 in Hr.
    destruct (8 * N.of_nat n <=? mem)%N eqn:Hm.
    + apply N.leb_le in Hm. split; [by intros [= <-] | by intros (-> & _)].
    + apply N.leb_gt in Hm. split; [done | lia].
  - split; [done|]. intros (_ & Hn%representable_1 & _). congruence.
Qed.

(** What [numbers_array] returns, and when. *)
Lemma numbers_array_Some (mem : N) (nrow ncol : nat) (a : Np.ndarray2 Z) :
  Np.numbers_array mem nrow ncol = Some a
  ↔ a = Np.Ndarray2 (nrow, ncol) (Np.upto (nrow * ncol))
    ∧ (N.of_nat nrow < 2 ^ 60 ∧ N.of_nat ncol < 2 ^ 60
       ∧ N.of_nat nrow * N.of_nat ncol < 2 ^ 60)%N
    ∧ (8 * (N.of_nat nrow * N.of_nat ncol) ≤ mem)%N.
Proof.
  unfold Np.numbers_array. rewrite <- Nat2N.inj_mul.
  destruct (Np.arange mem (nrow * ncol)) as [xs|] eqn:Hxs;
    cbn [mbind option_bind].
  - apply arange_Some in Hxs as (-> & Hn & Hm).
    unfold Np.reshape. cbn [fst snd].
    rewrite decide_True by apply upto_length.
    destruct (Np.representable [nrow; ncol]) eqn:Hr.
    + apply representable_2 in Hr. rewrite <- Nat2N.inj_mul in Hr.
      split; [by intros [= <-] | by intros (-> & _)].
    + split; [done|]. intros (_ & Hd & _). rewrite Nat2N.inj_mul in Hd.
      apply representable_2 in Hd. congruence.
  - split; [done|]. intros (_ & (_ & _ & Hn) & Hm).
    assert (Np.arange mem (nrow * ncol) = Some (Np.upto (nrow * ncol))) as Hs
      by (by apply arange_Some).
    congruence.
Qed.

Lemma numbers_array_inv (mem : N) (nrow ncol : nat) (a : Np.ndarray2 Z) :
  Np.numbers_array mem nrow ncol = Some a →
  a = Np.Ndarray2 (nrow, ncol) (Np.upto (nrow * ncol)).
Proof. by intros (-> & _)%numbers_array_Some. Qed.

(** C7.  For all natural numbers [nrow] and [ncol] that NumPy accepts as the
    dimensions of an array of 8-byte integers ([nrow], [ncol] and
    [nrow*ncol] below [2^60]) and for which the [8*nrow*ncol] bytes of the
    array can be allocated, [numbers_array(nrow, ncol)] returns a 2-D array
    of shape [(nrow, ncol)] whose element at row [i], column [j] is
    [i*ncol + j], for all [i < nrow] and [j < ncol]. *)
Theorem numbers_array_spec (mem : N) (nrow ncol : nat) :
  (N.of_nat nrow < 2 ^ 60)%N →
  (N.of_nat ncol < 2 ^ 60)%N →
  (N.of_nat nrow * N.of_nat ncol < 2 ^ 60)%N →
  (8 * (N.of_nat nrow * N.of_nat ncol) ≤ mem)%N →
  ∃ a, Np.numbers_array mem nrow ncol = Some a
       ∧ Np.shape a = (nrow, ncol)
       ∧ ∀ i j, i < nrow → j < ncol →
           Np.item a i j = Some (Z.of_nat (i * ncol + j)).
Proof.
  intros Hn Hm Hnm Hmem. eexists. split; [by apply numbers_array_Some|].
  split; [reflexivity|].
  intros i j Hi Hj. unfold Np.item. simpl.
  destruct (decide (i < nrow ∧ j < ncol)) as [_|Hno]; [|tauto].
  apply upto_lookup. nia.
Qed.

(** Line 230, with a gibibyte to allocate from. *)
Lemma numbers_array_spec_witness :
  ∃ a, Np.numbers_array (2 ^ 30) 7 4 = Some a
       ∧ Np.shape a = (7, 4)
       ∧ Np.item a 6 3 = Some 27%Z.
Proof.
  destruct (numbers_array_spec (2 ^ 30) 7 4) as (a & Ha & Hs & Hi);
    [reflexivity | reflexivity | reflexivity | by vm_compute |].
  exists a. split; [exact Ha|]. split; [exact Hs|].
  apply (Hi 6 3); lia.
Defined.

(** C7 as stated fails: whatever the memory of the platform, the
    [2^31 * 2^31] integers of [numbers_array(2**31, 2**31)] take more bytes
    than NumPy accepts, and the call raises. *)
Lemma numbers_array_too_big :
  ¬ ∃ mem : N, ∀ nrow ncol : nat,
      ∃ a, Np.numbers_array mem nrow ncol = Some a
           ∧ Np.shape a = (nrow, ncol)
           ∧ ∀ i j, i < nrow → j < ncol →
               Np.item a i j = Some (Z.of_nat (i * ncol + j)).
Proof.
  intros (mem & H). destruct (H (2 ^ 31) (2 ^ 31)) as (a & Ha & _).
  apply numbers_array_Some in Ha as (_ & (_ & _ & Hlt) & _).
  rewrite !Nat2N.inj_pow in Hlt.
  change (N.of_nat 2) with 2%N in Hlt. change (N.of_nat 31) with 31%N in Hlt.
  apply N.ltb_lt in Hlt. vm_compute in Hlt. discriminate Hlt.
Qed.

(** The array [data] of line 230 and the one of line 296. *)
Example numbers_array_7_4 :
  Np.flat <$> Np.numbers_array (2 ^ 30) 7 4
  = Some [0; 1; 2; 3; 4; 5; 6; 7; 8; 9; 10; 11; 12; 13; 14; 15; 16; 17; 18;
          19; 20; 21; 22; 23; 24; 25; 26; 27]%Z.
Proof. reflexivity. Qed.

Example numbers_array_3_5 :
  Np.numbers_array (2 ^ 30) 3 5
  = Some (Np.Ndarray2 (3, 5) [0; 1; 2; 3; 4; 5; 6; 7; 8; 9; 10; 11; 12; 13; 14]%Z).
Proof. reflexivity. Qed.

(** Without the 224 bytes of the 7 x 4 array there is no array. *)
Example numbers_array_raises : Np.numbers_array 100 7 4 = None.
Proof. reflexivity. Qed.

(** The comprehension pairs the three sequences as [zip_with] does, whatever
    their lengths. *)
Lemma comprehension_zip_with {A} (cond : list bool) (xarr yarr : list A) :
  Np.comprehension xarr yarr cond
  = zip_with (λ (c : bool) (xy : A * A), if c then xy.1 else xy.2)
             cond (zip xarr yarr).
Proof.
  unfold Np.comprehension.
  revert yarr cond. induction xarr as [|x xarr IH]; intros [|y yarr] [|c cond];
    simpl; try reflexivity.
  f_equal. apply IH.
Qed.

Lemma comprehension_length {A} (cond : list bool) (xarr yarr : list A) n :
  length cond = n → length xarr = n → length yarr = n →
  length (Np.comprehension xarr yarr cond) = n.
Proof.
  intros Hc Hx Hy. rewrite comprehension_zip_with.
  rewrite length_zip_with, length_zip_with. lia.
Qed.

Lemma comprehension_lookup {A} (cond : list bool) (xarr yarr : list A)
    (i : nat) (c : bool) (x y : A) :
  cond !! i = Some c → xarr !! i = Some x → yarr !! i = Some y →
  Np.comprehension xarr yarr cond !! i = Some (if c then x else y).
Proof.
  unfold Np.comprehension.
  revert i yarr cond.
  induction xarr as [|x' xarr IH]; intros [|i] [|y' yarr] [|c' cond] Hc Hx Hy;
    simplify_eq/=; [reflexivity | by apply IH].
Qed.

Lemma broadcast_dim_same n : Np.broadcast_dim n n = Some n.
Proof. unfold Np.broadcast_dim. repeat case_decide; congruence. Qed.

Lemma broadcast_to_same {A} (a : list A) n : length a = n → Np.broadcast_to n a = a.
Proof. intros H. unfold Np.broadcast_to. by rewrite decide_True. Qed.

(** C8.  For a Boolean array [cond] and arrays [xarr], [yarr] of the same
    length [n], the list comprehension of line 282 and [np.where(cond, xarr,
    yarr)] of line 284 produce the same sequence of [n] elements: element
    [i] is [xarr[i]] when [cond[i]] is true and [yarr[i]] otherwise. *)
Theorem where_is_comprehension {A} (cond : list bool) (xarr yarr : list A) (n : nat) :
  length cond = n → length xarr = n → length yarr = n →
  Np.np_where cond xarr yarr = Some (Np.comprehension xarr yarr cond)
  ∧ length (Np.comprehension xarr yarr cond) = n
  ∧ ∀ (i : nat) (c : bool) (x y : A),
      cond !! i = Some c → xarr !! i = Some x → yarr !! i = Some y →
      Np.comprehension xarr yarr cond !! i = Some (if c then x else y).
Proof.
  intros Hc Hx Hy. split; [|split].
  - unfold Np.np_where. rewrite Hc, Hx, Hy.
    rewrite broadcast_dim_same. simpl. rewrite broadcast_dim_same. simpl.
    rewrite !broadcast_to_same by assumption.
    by rewrite comprehension_zip_with.
  - by apply comprehension_length.
  - intros i c x y. apply comprehension_lookup.
Qed.

(** Lines 279-285: strings stand for the floats of the script. *)
Lemma where_is_comprehension_witness :
  let cond := [true; false; true; true; false] in
  let xarr := ["1.1"; "1.2"; "1.3"; "1.4"; "1.5"]%string in
  let yarr := ["2.1"; "2.2"; "2.3"; "2.4"; "2.5"]%string in
  Np.np_where cond xarr yarr = Some ["1.1"; "2.2"; "1.3"; "1.4"; "2.5"]%string
  ∧ Np.comprehension xarr yarr cond = ["1.1"; "2.2"; "1.3"; "1.4"; "2.5"]%string.
Proof.
  intros cond xarr yarr.
  destruct (where_is_comprehension cond xarr yarr 5) as (Hw & _ & _);
    [reflexivity | reflexivity | reflexivity |].
  split; [rewrite Hw|]; reflexivity.
Defined.

End ArrayValues.

Section ViewsAndCopies.
Context {A : Type}.
Implicit Types (h : Np.store A) (a : Np.ndarray) (v : A).

Lemma elems_ext h h' a :
  h' !! Np.base a = h !! Np.base a → Np.elems h' a = Np.elems h a.
Proof. intros H. unfold Np.elems. by rewrite H. Qed.

Lemma elems_valid h a :
  Np.valid h a → ∃ xs, Np.elems h a = Some xs ∧ length xs = Np.size a.
Proof.
  intros (b & Hb & Hlen). unfold Np.elems. rewrite Hb. simpl.
  eexists. split; [reflexivity|].
  rewrite length_take, length_drop. lia.
Qed.

Lemma elems_array h (xs : list A) :
  Np.elems (Np.array h xs).1 (Np.array h xs).2 = Some xs.
Proof.
  unfold Np.elems, Np.array. cbn [fst snd Np.base Np.offset Np.size].
  rewrite list_lookup_middle by reflexivity. cbn [mbind option_bind].
  by rewrite drop_0, firstn_all.
Qed.

Lemma array_keeps h (xs : list A) a :
  Np.valid h a → Np.elems (Np.array h xs).1 a = Np.elems h a.
Proof.
  intros (b & Hb & _). apply elems_ext. unfold Np.array. cbn [fst].
  apply lookup_app_l. by eapply lookup_lt_Some.
Qed.

Lemma write_other h a ks v h' (b : nat) :
  Np.write h a ks v = Some h' → b ≠ Np.base a → h' !! b = h !! b.
Proof.
  unfold Np.write. intros Hw Hne.
  destruct (h !! Np.base a) as [buf|]; simplify_eq/=.
  by rewrite list_lookup_insert_ne.
Qed.

Lemma assign_other h a (s : Np.assignment) h' (b : nat) :
  Np.assign h a s = Some h' → b ≠ Np.base a → h' !! b = h !! b.
Proof.
  destruct s as [i v|lo hi v|mask v]; simpl.
  - unfold Np.setitem. destruct (Np.index (Np.size a) i); simpl; [|done].
    apply write_other.
  - unfold Np.setslice. apply write_other.
  - unfold Np.setmask. case_decide; [|done]. apply write_other.
Qed.

Lemma assigns_other h a (ss : list Np.assignment) h' (b : nat) :
  Np.assigns h a ss = Some h' → b ≠ Np.base a → h' !! b = h !! b.
Proof.
  revert h. induction ss as [|s ss IH]; intros h Hs Hne; simpl in Hs.
  - by simplify_eq.
  - destruct (Np.assign h a s) as [h1|] eqn:H1; simpl in Hs; [|done].
    rewrite (IH h1 Hs Hne). by eapply assign_other.
Qed.

Lemma bound_le (n d : nat) (b : option Z) : d ≤ n → Np.bound n d b ≤ n.
Proof.
  intros Hd. destruct b as [z|]; simpl; [|done].
  case_decide; lia.
Qed.

Lemma index_of_nat (n k : nat) : k < n → Np.index n (Z.of_nat k) = Some k.
Proof.
  intros Hk. unfold Np.index.
  rewrite decide_True by lia. by rewrite Nat2Z.id.
Qed.

(** Boolean indexing makes a new buffer. *)
Lemma getmask_copies h data (mask : list bool) :
  Np.valid h data → length mask = Np.size data →
  ∃ h1 subset xs,
    Np.getmask h data mask = Some (h1, subset)
    ∧ Np.elems h data = Some xs
    ∧ Np.elems h1 subset = Some (Np.select mask xs)
    ∧ Np.elems h1 data = Some xs
    ∧ Np.base subset ≠ Np.base data.
Proof.
  intros Hv Hm. destruct (elems_valid h data Hv) as (xs & Hxs & _).
  exists (Np.array h (Np.select mask xs)).1, (Np.array h (Np.select mask xs)).2, xs.
  split; [|split; [done|split; [apply elems_array|split]]].
  - unfold Np.getmask. rewrite decide_True by (by left). by rewrite Hxs.
  - by rewrite array_keeps.
  - destruct Hv as (b & Hb & _). apply lookup_lt_Some in Hb. simpl. lia.
Qed.

(** Writing through a basic slice writes the array it was taken from. *)
Lemma setitem_slice_writes h arr (lo hi : option Z) (k : nat) v :
  Np.valid h arr → k < Np.size (Np.getslice arr lo hi) →
  ∃ h', Np.setitem h (Np.getslice arr lo hi) (Z.of_nat k) v = Some h'
        ∧ Np.elems h' arr
          = (λ xs, <[(Np.slice_indices (Np.size arr) lo hi).1 + k := v]> xs)
              <$> Np.elems h arr
        ∧ Np.elems h' arr ≫= (.!! ((Np.slice_indices (Np.size arr) lo hi).1 + k))
          = Some v.
Proof.
  intros (b & Hb & Hlen) Hk. unfold Np.getslice, Np.slice_indices in *.
  simpl in *.
  set (start := Np.bound (Np.size arr) 0 lo) in *.
  set (stop := Np.bound (Np.size arr) (Np.size arr) hi) in *.
  assert (stop ≤ Np.size arr) by (apply bound_le; lia).
  unfold Np.setitem. simpl. rewrite index_of_nat by done. simpl.
  unfold Np.write. simpl. rewrite Hb. simpl.
  eexists. split; [reflexivity|].
  pose proof (lookup_lt_Some _ _ _ Hb) as Hbase.
  unfold Np.elems. rewrite list_lookup_insert_eq by done. rewrite Hb. simpl.
  rewrite drop_insert_ge by lia.
  replace (Np.offset arr + start + k - Np.offset arr) with (start + k) by lia.
  rewrite take_insert_lt by lia.
  split; [reflexivity|].
  apply list_lookup_insert_eq. rewrite length_take, length_drop. lia.
Qed.

(** C9.  Boolean indexing returns a copy: after [subset = data[mask]], with
    a mask of the length of [data], no sequence of assignments into
    [subset] changes an element of [data].  A basic slice such as
    [arr[2:7]] is a view: an assignment to its element [k] sets the
    corresponding element of [arr]. *)
Theorem boolean_index_copies_slice_views h data arr :
  Np.valid h data → Np.valid h arr →
  (∀ mask : list bool, length mask = Np.size data →
     ∃ h1 subset,
       Np.getmask h data mask = Some (h1, subset)
       ∧ Np.elems h1 data = Np.elems h data
       ∧ ∀ (ss : list Np.assignment) h2,
           Np.assigns h1 subset ss = Some h2 →
           Np.elems h2 data = Np.elems h data)
  ∧ (∀ (lo hi : option Z) (k : nat) v,
       k < Np.size (Np.getslice arr lo hi) →
       ∃ h', Np.setitem h (Np.getslice arr lo hi) (Z.of_nat k) v = Some h'
             ∧ Np.elems h' arr
               = (λ xs, <[(Np.slice_indices (Np.size arr) lo hi).1 + k := v]> xs)
                   <$> Np.elems h arr
             ∧ Np.elems h' arr
                 ≫= (.!! ((Np.slice_indices (Np.size arr) lo hi).1 + k))
               = Some v).
Proof.
  intros Hdata Harr. split.
  - intros mask Hm.
    destruct (getmask_copies h data mask Hdata Hm)
      as (h1 & subset & xs & Hg & Hxs & _ & Hkeep & Hne).
    exists h1, subset. split; [done|]. split; [congruence|].
    intros ss h2 Hss. rewrite Hxs, <- Hkeep.
    apply elems_ext. eapply assigns_other; [exact Hss|]. congruence.
  - intros lo hi k v Hk. by apply setitem_slice_writes.
Qed.

End ViewsAndCopies.

(** Lines 203-209 and 253-259 on concrete arrays: [arr = np.arange(10)]
    with the slice [arr[2:7]], and an array [data] of seven elements with
    the mask [cats == 'calico']. *)
Lemma boolean_index_copies_slice_views_witness :
  let h := [Np.upto 10; Np.upto 7] in
  let arr := Np.Ndarray 0 0 10 in
  let data := Np.Ndarray 1 0 7 in
  let mask := [false; true; false; false; false; true; true] in
  (∃ h1 subset,
     Np.getmask h data mask = Some (h1, subset)
     ∧ ∀ h2, Np.assigns h1 subset [Np.AssignItem 0 10%Z] = Some h2 →
             Np.elems h2 data = Some (Np.upto 7))
  ∧ (∃ h', Np.setitem h (Np.getslice arr (Some 2%Z) (Some 7%Z)) 0 (-42)%Z = Some h'
           ∧ Np.elems h' arr = Some [0; 1; -42; 3; 4; 5; 6; 7; 8; 9]%Z).
Proof.
  intros h arr data mask.
  assert (Hdata : Np.valid h data).
  { exists (Np.upto 7). split; [reflexivity | simpl; lia]. }
  assert (Harr : Np.valid h arr).
  { exists (Np.upto 10). split; [reflexivity | simpl; lia]. }
  destruct (boolean_index_copies_slice_views h data arr Hdata Harr) as [Hcopy Hview].
  split.
  - destruct (Hcopy mask eq_refl) as (h1 & subset & Hg & _ & Hkeep).
    exists h1, subset. split; [exact Hg|].
    intros h2 H2. rewrite (Hkeep _ _ H2). reflexivity.
  - destruct (Hview (Some 2%Z) (Some 7%Z) 0 (-42)%Z) as (h' & Hs & He & _);
      [simpl; lia|].
    exists h'. split; [exact Hs|]. rewrite He. reflexivity.
Defined.

(** Lines 203-209: the slice is a view. *)
Example slice_view_demo :
  let '(h, arr) := Np.array [] (Np.upto 10) in
  let slice1 := Np.getslice arr (Some 2%Z) (Some 7%Z) in
  (h' ← Np.setslice h slice1 None (Some 2%Z) (-42)%Z;
   Some (Np.elems h' slice1, Np.elems h' arr))
  = Some (Some [-42; -42; 4; 5; 6]%Z,
          Some [0; 1; -42; -42; 4; 5; 6; 7; 8; 9]%Z).
Proof. reflexivity. Qed.

(** Lines 212-218: the copy of a slice is not. *)
Example slice_copy_demo :
  let '(h, arr) := Np.array [] (Np.upto 10) in
  ('(h1, slice1) ← Np.copy h (Np.getslice arr (Some 2%Z) (Some 7%Z));
   h' ← Np.setslice h1 slice1 None (Some 2%Z) (-42)%Z;
   Some (Np.elems h' slice1, Np.elems h' arr))
  = Some (Some [-42; -42; 4; 5; 6]%Z,
          Some [0; 1; 2; 3; 4; 5; 6; 7; 8; 9]%Z).
Proof. reflexivity. Qed.

(** An empty mask selects nothing and names no position, whatever the
    length of the array. *)
Example empty_mask_demo :
  let '(h, arr) := Np.array [] (Np.upto 10) in
  ('(h1, subset) ← Np.getmask h arr [];
   h' ← Np.setmask h1 arr [] (-42)%Z;
   Some (Np.elems h' subset, Np.elems h' arr))
  = Some (Some [], Some [0; 1; 2; 3; 4; 5; 6; 7; 8; 9]%Z).
Proof. reflexivity. Qed.

(** Lines 255-259 on the rows of a 7 x 4 array: [subset[0] = 10] sets a row
    of the copy and leaves [data] as it was. *)
Example boolean_copy_demo :
  let rows := [[0; 1; 0; 3]; [4; 5; 0; 7]; [8; 9; 0; 11]; [12; 13; 0; 15];
               [16; 17; 0; 19]; [20; 21; 2; 23]; [24; 25; 6; 27]]%Z in
  let '(h, data) := Np.array [] rows in
  let calico := [false; true; false; false; false; true; true] in
  ('(h1, subset) ← Np.getmask h data calico;
   h' ← Np.setitem h1 subset 0 [10; 10; 10; 10]%Z;
   Some (Np.elems h' subset, Np.elems h' data))
  = Some (Some [[10; 10; 10; 10]; [20; 21; 2; 23]; [24; 25; 6; 27]]%Z,
          Some rows).
Proof. reflexivity. Qed.

(* ===================================================================== *)
(** * Properties of the script                                             *)
(* ===================================================================== *)

Section Execution.
Import Py.

Lemma mem_elem_of (x : string) (l : list string) : mem x l = true ↔ x ∈ l.
Proof.
  unfold mem. rewrite existsb_exists. split.
  - intros (y & Hin & Heq). apply String.eqb_eq in Heq. subst.
    by apply list_elem_of_In.
  - intros Hin. exists x. split; [by apply list_elem_of_In | apply String.eqb_refl].
Qed.

Lemma exec_simple_eq o l s st : simple s = true → exec o l s st = exec_simple o l s st.
Proof. destruct s; simpl; intros H; try discriminate H; reflexivity. Qed.

Lemma steps_cons ls b st : steps (ls :: b) st = steps b (step ls st).
Proof. reflexivity. Qed.

Lemma trace_steps b st : trace (steps b st) = trace st ++ lines b.
Proof.
  revert st. induction b as [|[l s] b IH]; intros st.
  - simpl. by rewrite app_nil_r.
  - rewrite steps_cons, IH. unfold step. simpl. by rewrite <- app_assoc.
Qed.

(** A linear block runs to its first raising statement, or to its end. *)
Lemma exec_block_straight o b st :
  straight_line b = true →
  exec_block o b st
  = match first_raise o b with
    | None => (Normal, steps b st)
    | Some (k, l) => (Raised l, visit l (steps (take k b) st))
    end.
Proof.
  revert st. induction b as [|[l s] b IH]; intros st Hb; [reflexivity|].
  simpl in Hb. apply andb_true_iff in Hb as [Hs Hb].
  simpl. rewrite (exec_simple_eq _ _ _ _ Hs). unfold exec_simple.
  destruct (may_raise s && raises o l); [reflexivity|].
  rewrite (IH _ Hb). destruct (first_raise o b) as [[k l']|]; reflexivity.
Qed.

Lemma first_raise_Some o b k l :
  first_raise o b = Some (k, l) →
  ∃ s, b !! k = Some (l, s) ∧ may_raise s = true ∧ raises o l = true.
Proof.
  revert k. induction b as [|[l0 s0] b IH]; intros k H; [discriminate|].
  simpl in H. destruct (may_raise s0 && raises o l0) eqn:Hr.
  - simplify_eq. apply andb_true_iff in Hr as [? ?]. by exists s0.
  - destruct (first_raise o b) as [[k' l']|]; simplify_eq/=.
    by apply IH.
Qed.

Lemma first_raise_split o pre l s post :
  Forall (λ l', raises o l' = false) (lines pre) →
  may_raise s = true → raises o l = true →
  first_raise o (pre ++ (l, s) :: post) = Some (length pre, l).
Proof.
  intros Hpre Hs Hl. induction pre as [|[l0 s0] pre IH]; simpl.
  - by rewrite Hs, Hl.
  - inversion Hpre as [|? ? H0 Hrest]; subst. simpl in H0. rewrite H0.
    rewrite andb_false_r. by rewrite (IH Hrest).
Qed.

Lemma first_raise_quiet o b :
  Forall (λ l', raises o l' = false) (lines b) → first_raise o b = None.
Proof.
  induction b as [|[l0 s0] b IH]; intros H; [reflexivity|].
  inversion H as [|? ? H0 Hrest]; subst. simpl in *.
  by rewrite H0, andb_false_r, (IH Hrest).
Qed.

(** The two ways a run of a linear file ends. *)
Lemma run_straight o b :
  straight_line b = true →
  (first_raise o b = None ∧ run o b = (Normal, steps b init))
  ∨ (∃ k l s, b !! k = Some (l, s) ∧ may_raise s = true ∧ raises o l = true
              ∧ run o b = (Raised l, visit l (steps (take k b) init))).
Proof.
  intros Hb. unfold run. rewrite (exec_block_straight _ _ _ Hb).
  destruct (first_raise o b) as [[k l]|] eqn:Hf.
  - right. destruct (first_raise_Some _ _ _ _ Hf) as (s & Hk & Hs & Hl).
    by exists k, l, s.
  - by left.
Qed.

(** A property checked on the state after each prefix of a linear file, and
    kept by [visit], holds at the end of every run. *)
Lemma run_invariant (P : state → bool) o b :
  straight_line b = true →
  (∀ l st, P st = true → P (visit l st) = true) →
  forallb (λ k, P (steps (take k b) init)) (seq 0 (S (length b))) = true →
  P (run o b).2 = true.
Proof.
  intros Hb Hvisit Hall.
  assert (Hk : ∀ k, k ≤ length b → P (steps (take k b) init) = true).
  { intros k Hle. rewrite forallb_forall in Hall. apply Hall.
    apply in_seq. lia. }
  destruct (run_straight o b Hb) as [[_ Hr]|(k & l & s & Hlk & _ & _ & Hr)];
    rewrite Hr; simpl.
  - rewrite <- (firstn_all b). by apply Hk.
  - apply Hvisit, Hk. apply lookup_lt_Some in Hlk. lia.
Qed.

(** The execution model on statements the script does not have: a [try]
    catches, a conditional skips a branch, a loop repeats, a [raise]
    leaves. *)
Example try_catches :
  run (raising_at 2) [(1, Try [(2, Expr (Name "x"))] [(3, Pass)]); (4, Pass)]
  = (Normal, State [] [] [] [1; 2; 3; 4]).
Proof. reflexivity. Qed.

Example if_skips_a_branch :
  run quiet [(1, If (Name "c") [(2, Pass)] [(3, Pass)]); (4, Pass)]
  = (Normal, State [] [] [] [1; 2; 4]).
Proof. reflexivity. Qed.

Example while_repeats :
  run (Oracle (λ _, false) (λ _, true) (λ _, 2)) [(1, While (Name "c") [(2, Pass)])]
  = (Normal, State [] [] [] [1; 2; 2]).
Proof. reflexivity. Qed.

Example raise_leaves :
  run quiet [(1, Raise None); (2, Pass)] = (Raised 1, State [] [] [] [1]).
Proof. reflexivity. Qed.

(** A helper that saves a file writes it at its call, not at its [def]. *)
Example helper_writes_at_call :
  map (λ k, written (run quiet
               (take k [(1, Import "numpy" (Some "np"));
                        (2, FunctionDef "dump" ["a"]
                              [(3, Expr (call (np "save") [str "out"; Name "a"]))]);
                        (4, Expr (call (Name "dump") [Name "x"]))])).2)
      [2; 3]
  = [[]; ["out.npy"%string]].
Proof. reflexivity. Qed.

Example some_array_name : some_array = "some_array.npy"%string.
Proof. reflexivity. Qed.

Lemma script_straight : straight_line script = true.
Proof. vm_compute. reflexivity. Qed.

Lemma script_lines_NoDup : NoDup (lines script).
Proof. apply (bool_decide_unpack _). vm_compute. exact I. Qed.

End Execution.

Section ScriptFacts.
Import Py.

Lemma written_bounded o : writes_at_most_some_array (run o script).2 = true.
Proof.
  apply run_invariant; [apply script_straight | done |].
  vm_compute. reflexivity.
Qed.

Lemma run_normal o b :
  straight_line b = true → (run o b).1 = Normal → run o b = (Normal, steps b init).
Proof.
  intros Hb Hn.
  destruct (run_straight o b Hb) as [[_ Hr]|(k & l & s & _ & _ & _ & Hr)];
    [done|]. rewrite Hr in Hn. discriminate.
Qed.

(** C1 as stated fails: the run in which nothing raises, started in an
    empty directory, ends with a file on disk. *)
Lemma run_leaves_a_file :
  ¬ (∀ (o : oracle) (fs : gset string), disk fs (run o script).2 = fs).
Proof.
  intros H. specialize (H quiet ∅).
  assert (Hw : written (run quiet script).2 = [some_array])
    by (vm_compute; reflexivity).
  unfold disk in H. rewrite Hw in H.
  assert (Hin : some_array ∈ (∅ : gset string)).
  { rewrite <- H. apply elem_of_union_r, elem_of_list_to_set, list_elem_of_here. }
  by apply not_elem_of_empty in Hin.
Qed.

(** C1, amended.  The only durable state the script creates is the file
    [some_array.npy] that [np.save] writes at line 387: every run leaves
    the files on disk as they were or adds [some_array.npy] to them, and a
    run that reaches the end of the script adds it. *)
Theorem only_some_array_is_written (o : oracle) (fs : gset string) :
  (disk fs (run o script).2 = fs
   ∨ disk fs (run o script).2 = fs ∪ {[some_array]})
  ∧ ((run o script).1 = Normal →
     disk fs (run o script).2 = fs ∪ {[some_array]}).
Proof.
  split.
  - pose proof (written_bounded o) as Hw. unfold writes_at_most_some_array in Hw.
    unfold disk. destruct (written (run o script).2) as [|f [|g ws]];
      [left | right | discriminate Hw].
    + by rewrite list_to_set_nil, union_empty_r_L.
    + apply String.eqb_eq in Hw. subst f.
      by rewrite list_to_set_cons, list_to_set_nil, union_empty_r_L.
  - intros Hn. rewrite (run_normal o script script_straight Hn).
    unfold disk. cbn [snd].
    assert (Hw : written (steps script init) = [some_array])
      by (vm_compute; reflexivity).
    rewrite Hw.
    by rewrite list_to_set_cons, list_to_set_nil, union_empty_r_L.
Qed.

Lemma only_some_array_is_written_witness :
  (run quiet script).1 = Normal
  ∧ disk ∅ (run quiet script).2 = ∅ ∪ {[some_array]}.
Proof.
  assert (Hn : (run quiet script).1 = Normal) by (vm_compute; reflexivity).
  split; [exact Hn|].
  exact (proj2 (only_some_array_is_written quiet ∅) Hn).
Defined.

(** C3 as stated fails: in the run in which the statement of line 242
    raises, the statements after it are not executed. *)
Lemma not_every_statement_runs :
  ¬ (∀ o : oracle, trace (run o script).2 = lines script).
Proof.
  intros H. specialize (H (raising_at 242)).
  apply (f_equal length) in H. vm_compute in H. discriminate H.
Qed.

Lemma lines_take k (b : block) : lines (take k b) = take k (lines b).
Proof. unfold lines. by rewrite fmap_take. Qed.

(** The statements a run executes are an initial part of the file, in file
    order. *)
Lemma trace_is_prefix o : ∃ k, trace (run o script).2 = take k (lines script).
Proof.
  destruct (run_straight o script script_straight)
    as [[_ Hr]|(k & l & s & Hk & _ & _ & Hr)]; rewrite Hr; cbn [snd].
  - exists (length (lines script)). by rewrite trace_steps, firstn_all.
  - exists (S k). cbn [visit trace]. rewrite trace_steps. cbn [init trace app].
    rewrite lines_take. symmetry. apply take_S_r.
    unfold lines. by rewrite list_lookup_fmap, Hk.
Qed.

(** C3, amended.  The top level of the script is a linear sequence: it has
    no conditional, loop or early exit, and no line holds two statements.
    In every run the statements executed are an initial part of the file,
    each executed once and in file order; a run in which no statement
    raises executes every top-level statement. *)
Theorem top_level_is_linear (o : oracle) :
  straight_line script = true
  ∧ exits script = []
  ∧ NoDup (lines script)
  ∧ (∃ k, trace (run o script).2 = take k (lines script))
  ∧ ((run o script).1 = Normal → trace (run o script).2 = lines script).
Proof.
  split; [apply script_straight|].
  split; [vm_compute; reflexivity|].
  split; [apply script_lines_NoDup|].
  split; [apply trace_is_prefix|].
  intros Hn. rewrite (run_normal o script script_straight Hn). cbn [snd].
  by rewrite trace_steps.
Qed.

Lemma top_level_is_linear_witness :
  (run quiet script).1 = Normal
  ∧ trace (run quiet script).2 = lines script.
Proof.
  assert (Hn : (run quiet script).1 = Normal) by (vm_compute; reflexivity).
  split; [exact Hn|].
  destruct (top_level_is_linear quiet) as (_ & _ & _ & _ & Hall).
  exact (Hall Hn).
Defined.

End ScriptFacts.

Section ScriptStructure.
Import Py.

Lemma straight_line_app b1 b2 :
  straight_line (b1 ++ b2) = straight_line b1 && straight_line b2.
Proof. unfold straight_line. apply forallb_app. Qed.

(** C4.  The script has no [try] statement, so a statement that raises ends
    the run: the exception is the outcome of the run, and the state is the
    one reached by the statements before it, with the raising statement
    begun and nothing after it. *)
Theorem exceptions_end_the_run (o : oracle) (pre post : block) (l : nat) (s : stmt) :
  script = pre ++ (l, s) :: post →
  Forall (λ l', raises o l' = false) (lines pre) →
  may_raise s = true →
  raises o l = true →
  handlers script = []
  ∧ (run o pre).1 = Normal
  ∧ run o script = (Raised l, visit l (run o pre).2).
Proof.
  intros Hsplit Hpre Hs Hl.
  pose proof script_straight as Hstr. rewrite Hsplit, straight_line_app in Hstr.
  apply andb_true_iff in Hstr as [Hstr_pre _].
  assert (Hrun_pre : run o pre = (Normal, steps pre init)).
  { unfold run. rewrite (exec_block_straight _ _ _ Hstr_pre).
    by rewrite (first_raise_quiet _ _ Hpre). }
  split; [vm_compute; reflexivity|].
  split; [by rewrite Hrun_pre|].
  rewrite Hrun_pre. cbn [snd]. unfold run.
  rewrite (exec_block_straight _ _ _ script_straight).
  rewrite Hsplit.
  rewrite (first_raise_split o pre l s post Hpre Hs Hl).
  by rewrite take_app_length.
Qed.

(** The run in which [np.linalg.inv] raises at line 316. *)
Lemma exceptions_end_the_run_witness :
  run (raising_at 316) script
  = (Raised 316, visit 316 (run (raising_at 316) (take 159 script)).2).
Proof.
  refine (proj2 (proj2 (exceptions_end_the_run (raising_at 316)
            (take 159 script) (drop 160 script) 316
            (Assign [Name "inv"]
               (Call (Attribute (Attribute (Name "np") "linalg") "inv")
                     [Name "mat"] []))
            _ _ _ _))).
  - vm_compute. reflexivity.
  - apply (bool_decide_unpack _). vm_compute. exact I.
  - reflexivity.
  - reflexivity.
Defined.

(** C5.  For each of the usage categories (array creation, indexing,
    slicing, linear algebra, aggregation, sorting, set operations, file
    I/O) a top-level statement of the script performs an operation of the
    category, and every run that reaches the end of the script executes
    it. *)
Theorem every_category_is_used (c : category) :
  ∃ l s, (l, s) ∈ script
         ∧ c ∈ categories (aliases script) s
         ∧ ∀ o, (run o script).1 = Normal → l ∈ trace (run o script).2.
Proof.
  assert (Hdyn : ∀ k l s, script !! k = Some (l, s) →
            ∀ o, (run o script).1 = Normal → l ∈ trace (run o script).2).
  { intros k l s Hk o Hn. rewrite (run_normal o script script_straight Hn).
    cbn [snd]. rewrite trace_steps. cbn [init trace app].
    apply list_elem_of_lookup. exists k. unfold lines.
    by rewrite list_lookup_fmap, Hk. }
  assert (Hcat : ∀ k l s, script !! k = Some (l, s) →
            c ∈ categories (aliases script) s →
            ∃ l s, (l, s) ∈ script ∧ c ∈ categories (aliases script) s
                   ∧ ∀ o, (run o script).1 = Normal → l ∈ trace (run o script).2).
  { intros k l s Hk Hc. exists l, s. split; [|split; [exact Hc|]].
    - apply list_elem_of_lookup. by exists k.
    - by apply (Hdyn k l s). }
  destruct c.
  - (* line 66: np.random.randn(2, 3) *)
    apply (Hcat 7 66 (assign "data" (call (np2 "random" "randn") [int 2; int 3])));
      [reflexivity | vm_compute; apply list_elem_of_here].
  - (* line 176: arr[5] *)
    apply (Hcat 72 176 (print (Subscript (Name "arr") (int 5))));
      [reflexivity | vm_compute; apply list_elem_of_here].
  - (* line 177: arr[5:8] *)
    apply (Hcat 73 177 (print (Subscript (Name "arr") (slc (Some 5%Z) (Some 8%Z)))));
      [reflexivity | vm_compute; apply list_elem_of_here].
  - (* line 316: np.linalg.inv(mat) *)
    apply (Hcat 159 316 (assign "inv" (call (np2 "linalg" "inv") [Name "mat"])));
      [reflexivity | vm_compute; apply list_elem_of_here].
  - (* line 326: arr.mean() *)
    apply (Hcat 164 326 (print (meth (Name "arr") "mean" [])));
      [reflexivity | vm_compute; apply list_elem_of_here].
  - (* line 352: arr.sort() *)
    apply (Hcat 180 352 (Expr (meth (Name "arr") "sort" [])));
      [reflexivity | vm_compute; apply list_elem_of_here].
  - (* line 371: np.unique(names) *)
    apply (Hcat 191 371 (print (call (np "unique") [Name "names"])));
      [reflexivity | vm_compute; apply list_elem_of_here].
  - (* line 387: np.save('some_array', arr) *)
    apply (Hcat 199 387 (Expr (call (np "save") [str "some_array"; Name "arr"])));
      [reflexivity | vm_compute; apply list_elem_of_here].
Qed.

Lemma every_category_is_used_witness :
  ∃ l, l ∈ lines script ∧ l ∈ trace (run quiet script).2.
Proof.
  destruct (every_category_is_used FileIO) as (l & s & Hin & _ & Hrun).
  exists l. split.
  - apply list_elem_of_fmap. by exists (l, s).
  - apply Hrun. vm_compute. reflexivity.
Defined.

End ScriptStructure.

Section ScriptLogic.
Import Py.

Lemma site_in_script (lk : nat * kind) :
  bool_decide (lk ∈ kinds script) = true → lk ∈ kinds script.
Proof. apply bool_decide_eq_true_1. Qed.

Lemma line_elem_of (l : nat) (ls : list nat) :
  existsb (Nat.eqb l) ls = true → l ∈ ls.
Proof.
  rewrite existsb_exists. intros (y & Hin & Heq).
  apply Nat.eqb_eq in Heq. subst. by apply list_elem_of_In.
Qed.

Lemma script_accounted : forallb accounted (kinds script) = true.
Proof. vm_compute. reflexivity. Qed.

(** C2 as stated fails: the list comprehension of line 282 computes a value
    and is no call into the library.  (Calls of [print], and operators,
    indices and methods applied to library values, are counted as the
    library's here.) *)
Lemma comprehension_is_not_a_library_call :
  ¬ (∀ l k, (l, k) ∈ kinds script → computes k = true →
            k ≠ BuiltinCall "print" → by_library k = true).
Proof.
  intros H. specialize (H 282 LocalLogic).
  assert (Hfalse : by_library LocalLogic = true); [|discriminate Hfalse].
  apply H; [|reflexivity|discriminate].
  apply site_in_script. vm_compute. reflexivity.
Qed.

(** C2, amended.  Wherever the script computes, the library does it (a
    function of [np], or a method, an operator or an index applied to a
    library value), with these exceptions, all of which occur: the calls of
    the builtins [print], [zip], [int], [len], [set] and [sorted]; the calls
    of the two helpers the file defines, [heading] and [numbers_array]; and
    local logic at lines 50 and 51 (building the heading string), 228 (the
    product [nrow*ncol]), 282 (the list comprehension and its conditional
    expression) and 362 (the product [0.05 * len(large_arr)]). *)
Theorem library_except_listed_logic :
  (∀ l k, (l, k) ∈ kinds script → computes k = true →
     by_library k = true
     ∨ (∃ f, k = BuiltinCall f ∧ f ∈ builtins_used)
     ∨ (∃ f, k = LocalCall f ∧ f ∈ helpers)
     ∨ (k = LocalLogic ∧ l ∈ local_logic_lines))
  ∧ (∀ f, f ∈ builtins_used → ∃ l, (l, BuiltinCall f) ∈ kinds script)
  ∧ (∀ f, f ∈ helpers → ∃ l, (l, LocalCall f) ∈ kinds script)
  ∧ (∀ l, l ∈ local_logic_lines → (l, LocalLogic) ∈ kinds script)
  ∧ defined_functions script = helpers.
Proof.
  split; [|split; [|split; [|split]]].
  - intros l k Hin Hc.
    pose proof script_accounted as Hall. rewrite forallb_forall in Hall.
    specialize (Hall (l, k) (proj1 (list_elem_of_In _ _) Hin)).
    unfold accounted in Hall. simpl in Hall.
    destruct k as [| | |f|f| | |]; try discriminate; auto.
    + right. left. exists f. split; [done | by apply mem_elem_of].
    + right. right. left. exists f. split; [done | by apply mem_elem_of].
    + right. right. right. split; [done | by apply line_elem_of].
  - intros f Hf. unfold builtins_used in Hf.
    repeat (apply elem_of_cons in Hf as [->|Hf]);
      [exists 46 | exists 282 | exists 362 | exists 362 | exists 372 | exists 373
      | by apply elem_of_nil in Hf];
      apply site_in_script; vm_compute; reflexivity.
  - intros f Hf. unfold helpers in Hf.
    repeat (apply elem_of_cons in Hf as [->|Hf]);
      [exists 53 | exists 230 | by apply elem_of_nil in Hf];
      apply site_in_script; vm_compute; reflexivity.
  - intros l Hl. unfold local_logic_lines in Hl.
    repeat (apply elem_of_cons in Hl as [->|Hl]);
      [.. | by apply elem_of_nil in Hl];
      apply site_in_script; vm_compute; reflexivity.
  - vm_compute. reflexivity.
Qed.

Lemma library_except_listed_logic_witness :
  (282, LocalLogic) ∈ kinds script
  ∧ (by_library LocalLogic = true
     ∨ (∃ f, LocalLogic = BuiltinCall f ∧ f ∈ builtins_used)
     ∨ (∃ f, LocalLogic = LocalCall f ∧ f ∈ helpers)
     ∨ (LocalLogic = LocalLogic ∧ 282 ∈ local_logic_lines)).
Proof.
  assert (Hin : (282, LocalLogic) ∈ kinds script)
    by (apply site_in_script; vm_compute; reflexivity).
  split; [exact Hin|].
  exact (proj1 library_except_listed_logic 282 LocalLogic Hin eq_refl).
Defined.

(** C6.  The script has no concurrency: it imports no module other than
    [__future__] and [numpy], none of its statements imports a module that
    starts threads or processes or loads code that could, and every run is
    one sequence of statements, executed in file order. *)
Theorem no_concurrency (o : oracle) :
  imported_modules script = ["__future__"; "numpy"]
  ∧ spawns script = []
  ∧ ∃ k, trace (run o script).2 = take k (lines script).
Proof.
  split; [vm_compute; reflexivity|].
  split; [vm_compute; reflexivity|].
  apply trace_is_prefix.
Qed.

End ScriptLogic.

(* ===================================================================== *)
(** * Further properties of the helpers and of the array operations        *)
(* ===================================================================== *)

Section Heading.

Lemma string_app_nil (b : string) : String.append EmptyString b = b.
Proof. reflexivity. Qed.

Lemma string_app_cons x (a b : string) :
  String.append (String x a) b = String x (String.append a b).
Proof. reflexivity. Qed.

Lemma string_app_assoc (a b c : string) :
  String.append (String.append a b) c = String.append a (String.append b c).
Proof.
  induction a as [|x a IH]; [reflexivity|].
  rewrite !string_app_cons. by f_equal.
Qed.

Lemma string_length_app (a b : string) :
  String.length (String.append a b) = String.length a + String.length b.
Proof.
  induction a as [|x a IH]; [reflexivity|].
  rewrite string_app_cons. simpl. by rewrite IH.
Qed.

Lemma split_lines_nonempty s : Np.split_lines s ≠ [].
Proof.
  destruct s as [|c s]; simpl; [done|].
  destruct (Ascii.eqb c _); [done|]. by destruct (Np.split_lines s).
Qed.

(** Splitting at a newline splits the list of lines. *)
Lemma split_lines_app (a b : string) :
  Np.split_lines (String.append a (String.append Np.newline b))
  = Np.split_lines a ++ Np.split_lines b.
Proof.
  induction a as [|c a IH]; [reflexivity|].
  rewrite string_app_cons. cbn [Np.split_lines].
  destruct (Ascii.eqb c (Ascii.ascii_of_nat 10)).
  - by rewrite IH.
  - rewrite IH. pose proof (split_lines_nonempty a).
    by destruct (Np.split_lines a).
Qed.

(** X1.  [heading(s)] prints an empty line, a rule of 60 dashes, the lines
    of [s] and the same rule again: the rule is 60 wide whatever the length
    of [s], and no line of [s] is lost or joined to a rule. *)
Theorem heading_lines (s : string) :
  Np.split_lines (Np.heading s)
  = EmptyString :: Np.str_mul "-" 60 :: Np.split_lines s ++ [Np.str_mul "-" 60]
  ∧ String.length (Np.str_mul "-" 60) = 60
  ∧ String.length (Np.heading s) = String.length s + 123.
Proof.
  split; [|split; [reflexivity|]].
  - unfold Np.heading. cbv zeta.
    set (line := Np.str_mul "-" 60).
    rewrite !string_app_assoc.
    rewrite <- (string_app_nil (String.append Np.newline _)).
    rewrite !split_lines_app.
    assert (Hline : Np.split_lines line = [line]) by reflexivity.
    rewrite Hline. reflexivity.
  - unfold Np.heading. cbv zeta. rewrite !string_length_app.
    change (String.length (Np.str_mul "-" 60)) with 60.
    change (String.length Np.newline) with 1. lia.
Qed.

(** The heading of line 53: a title of two lines between the rules. *)
Example heading_line_53 :
  length (Np.split_lines (Np.heading
    "numpy: N-D arrays, linear algebra, FFT, random numbers
and other numerical operations.")) = 5.
Proof. reflexivity. Qed.

End Heading.

Section TwoDimensionalArrays.
Context {A : Type}.
Implicit Types (a b : Np.ndarray2 A).

Lemma mapM_lookup {B C} (f : B → option C) (l : list B) (k : list C) (i : nat) :
  mapM f l = Some k → k !! i = l !! i ≫= f.
Proof.
  intros H%mapM_Some. revert i.
  induction H as [|x y l k Hxy _ IH]; intros [|i]; simpl; try done.
Qed.

(** Elements of a list of rows of one length, by row and column. *)
Lemma lookup_bind_fmap {B C D} (g : B → C → D) (ks : list B) (cs : list C)
    (q r : nat) :
  r < length cs →
  (ks ≫= λ i, g i <$> cs) !! (q * length cs + r)
  = i ← ks !! q; c ← cs !! r; Some (g i c).
Proof.
  intros Hr. revert q. induction ks as [|k ks IH]; intros q.
  - by destruct q.
  - rewrite bind_cons. destruct q as [|q].
    + rewrite lookup_app_l by (rewrite length_fmap; lia).
      simpl. rewrite list_lookup_fmap. by destruct (cs !! r).
    + rewrite lookup_app_r by (rewrite length_fmap; lia).
      rewrite length_fmap.
      replace (S q * length cs + r - length cs) with (q * length cs + r) by lia.
      by rewrite IH.
Qed.

Lemma length_bind_fmap {B C D} (g : B → C → D) (ks : list B) (cs : list C) :
  length (ks ≫= λ i, g i <$> cs) = length ks * length cs.
Proof.
  induction ks as [|k ks IH]; [reflexivity|].
  rewrite bind_cons, length_app, length_fmap, IH. simpl. lia.
Qed.

Lemma item_flat a (i j : nat) :
  i < Np.nrows a → j < Np.ncols a →
  Np.item a i j = Np.flat a !! (i * Np.ncols a + j).
Proof.
  intros Hi Hj. unfold Np.item, Np.nrows, Np.ncols in *.
  by rewrite decide_True.
Qed.

Lemma item_None a (i j : nat) :
  ¬ (i < Np.nrows a ∧ j < Np.ncols a) → Np.item a i j = None.
Proof. intros H. unfold Np.item. by rewrite decide_False. Qed.

Lemma item_is_Some a (i j : nat) :
  Np.wf a → is_Some (Np.item a i j) ↔ i < Np.nrows a ∧ j < Np.ncols a.
Proof.
  intros Hwf. split.
  - intros [x Hx]. destruct (decide (i < Np.nrows a ∧ j < Np.ncols a)); [done|].
    by rewrite item_None in Hx.
  - intros [Hi Hj]. rewrite item_flat by done.
    apply lookup_lt_is_Some. rewrite Hwf. nia.
Qed.

Lemma index_Some (n : nat) (z : Z) (k : nat) :
  Np.index n z = Some k
  ↔ k < n ∧ (z = Z.of_nat k ∨ z = (Z.of_nat k - Z.of_nat n)%Z).
Proof.
  unfold Np.index. repeat case_decide; split; intros Hx; simplify_eq;
    try (split; lia); try (f_equal; lia); lia.
Qed.

Lemma index_is_Some (n : nat) (z : Z) :
  is_Some (Np.index n z) ↔ (- Z.of_nat n ≤ z < Z.of_nat n)%Z.
Proof.
  unfold Np.index. repeat case_decide; split; intros Hx;
    try (by eexists); try lia; by destruct Hx.
Qed.

Lemma indices_lt (n : nat) (zs : list Z) (ks : list nat) :
  mapM (Np.index n) zs = Some ks → Forall (λ k, k < n) ks.
Proof.
  intros H%mapM_Some. induction H as [|z k zs ks Hzk _ IH]; constructor; [|done].
  by apply index_Some in Hzk as [? _].
Qed.

Lemma mesh_bounds (ks cs : list nat) (n m : nat) :
  Forall (λ k, k < n) ks → Forall (λ c, c < m) cs →
  Forall (λ p : nat * nat, p.1 < n ∧ p.2 < m) (Np.mesh ks cs).
Proof.
  rewrite !Forall_forall. intros Hks Hcs [i c] Hin.
  apply list_elem_of_bind in Hin as (i' & Hin & Hi').
  apply list_elem_of_fmap in Hin as (c' & Heq & Hc'). simplify_eq/=. auto.
Qed.

Lemma seq_bounds (n : nat) : Forall (λ k, k < n) (seq 0 n).
Proof. apply Forall_forall. intros k Hk%elem_of_seq. lia. Qed.

(** Gathering at positions inside a well-formed array succeeds. *)
Lemma gather_Some a (shp : nat * nat) (ps : list (nat * nat)) :
  Np.wf a →
  Forall (λ p : nat * nat, p.1 < Np.nrows a ∧ p.2 < Np.ncols a) ps →
  ∃ xs, Np.gather a shp ps = Some (Np.Ndarray2 shp xs)
        ∧ length xs = length ps
        ∧ ∀ k, xs !! k = ps !! k ≫= λ p, Np.item a p.1 p.2.
Proof.
  intros Hwf Hps. unfold Np.gather.
  destruct (mapM (λ p : nat * nat, Np.item a p.1 p.2) ps) as [xs|] eqn:Hxs.
  - exists xs. split; [done|]. split.
    + symmetry. by eapply length_mapM.
    + intros k. by eapply mapM_lookup.
  - apply mapM_None in Hxs. apply Exists_exists in Hxs as (p & Hin & Hnone).
    rewrite Forall_forall in Hps. specialize (Hps p Hin).
    apply (item_is_Some a p.1 p.2 Hwf) in Hps. rewrite Hnone in Hps.
    by destruct Hps.
Qed.

Lemma gather_item a (shp : nat * nat) (ps : list (nat * nat)) b (k : nat) :
  Np.gather a shp ps = Some b →
  Np.shape b = shp ∧ length (Np.flat b) = length ps
  ∧ Np.flat b !! k = ps !! k ≫= λ p, Np.item a p.1 p.2.
Proof.
  unfold Np.gather. intros H.
  destruct (mapM _ ps) as [xs|] eqn:Hxs; simplify_eq/=.
  split; [done|]. split; [symmetry; by eapply length_mapM | by eapply mapM_lookup].
Qed.

Lemma indices_is_Some (n : nat) (zs : list Z) :
  is_Some (mapM (Np.index n) zs)
  ↔ Forall (λ r, (- Z.of_nat n ≤ r < Z.of_nat n)%Z) zs.
Proof.
  rewrite mapM_is_Some. apply Forall_iff. intros z. simpl. apply index_is_Some.
Qed.

(** Fancy indexing of rows: when it succeeds, and what it returns. *)
Lemma take_rows_rows a (rows : list Z) :
  Np.wf a →
  (is_Some (Np.take_rows a rows)
   ↔ Forall (λ r, (- Z.of_nat (Np.nrows a) ≤ r < Z.of_nat (Np.nrows a))%Z) rows)
  ∧ ∀ b, Np.take_rows a rows = Some b →
      Np.shape b = (length rows, Np.ncols a)
      ∧ Np.wf b
      ∧ ∀ (k : nat) (r : Z) (i j : nat),
          rows !! k = Some r → Np.index (Np.nrows a) r = Some i →
          Np.item b k j = Np.item a i j.
Proof.
  intros Hwf. unfold Np.take_rows. split.
  - rewrite <- indices_is_Some.
    destruct (mapM (Np.index (Np.nrows a)) rows) as [ks|] eqn:Hks; simpl.
    + split; [by eexists|]. intros _.
      destruct (gather_Some a (length ks, Np.ncols a)
                  (Np.mesh ks (seq 0 (Np.ncols a))) Hwf) as (xs & -> & _);
        [|by eexists].
      apply mesh_bounds; [by eapply indices_lt | apply seq_bounds].
    + split; intros [? ?]; done.
  - intros b Hb.
    destruct (mapM (Np.index (Np.nrows a)) rows) as [ks|] eqn:Hks;
      simpl in Hb; [|done].
    pose proof (length_mapM _ _ _ Hks) as Hlen.
    pose proof (λ k, gather_item a _ _ b k Hb) as Hg.
    destruct (Hg 0) as (Hshape & Hflat & _).
    unfold Np.mesh in Hflat. rewrite length_bind_fmap, length_seq in Hflat.
    split; [by rewrite Hshape, Hlen|].
    split; [unfold Np.wf, Np.nrows, Np.ncols; by rewrite Hshape|].
    intros k r i j Hr Hi.
    assert (Hki : ks !! k = Some i).
    { rewrite (mapM_lookup _ _ _ k Hks), Hr. done. }
    destruct (decide (j < Np.ncols a)) as [Hj|Hj].
    + rewrite item_flat.
      2:{ unfold Np.nrows. rewrite Hshape. simpl. by eapply lookup_lt_Some. }
      2:{ unfold Np.ncols. by rewrite Hshape. }
      destruct (Hg (k * Np.ncols b + j)) as (_ & _ & ->).
      unfold Np.ncols at 1. rewrite Hshape. cbn [snd].
      unfold Np.mesh.
      replace (k * Np.ncols a + j) with (k * length (seq 0 (Np.ncols a)) + j)
        by (by rewrite length_seq).
      rewrite lookup_bind_fmap by (by rewrite length_seq).
      rewrite Hki. simpl. rewrite lookup_seq_lt by done. done.
    + rewrite !item_None; [done| |]; unfold Np.ncols in *.
      * tauto.
      * rewrite Hshape. simpl. tauto.
Qed.

(** X2.  Fancy indexing of rows, [a[rows]] as at lines 267-268: with every
    index in [-nrows, nrows) it succeeds, the result has one row per index,
    in the order of the indices, and row [k] of the result is the row of
    [a] that the [k]-th index names, negative indices counting from the
    end.  On an array that has columns, an index outside that range
    raises. *)
Theorem take_rows_spec a (rows : list Z) :
  Np.wf a →
  (Forall (λ r, (- Z.of_nat (Np.nrows a) ≤ r < Z.of_nat (Np.nrows a))%Z) rows →
   ∃ b, Np.take_rows a rows = Some b
        ∧ Np.shape b = (length rows, Np.ncols a)
        ∧ ∀ (k : nat) (r : Z) (i j : nat),
            rows !! k = Some r → Np.index (Np.nrows a) r = Some i →
            Np.item b k j = Np.item a i j)
  ∧ (0 < Np.ncols a →
     Exists (λ r, ¬ (- Z.of_nat (Np.nrows a) ≤ r < Z.of_nat (Np.nrows a))%Z) rows →
     Np.take_rows a rows = None).
Proof.
  intros Hwf. destruct (take_rows_rows a rows Hwf) as [Hsome Hspec]. split.
  - intros Hin. destruct (proj2 Hsome Hin) as [b Hb]. exists b.
    destruct (Hspec b Hb) as (Hshape & _ & Hitem). done.
  - intros _ Hex. destruct (Np.take_rows a rows) as [b|] eqn:Hb; [|done].
    exfalso. apply Exists_exists in Hex as (r & Hr & Hout).
    assert (Hall := proj1 Hsome (ltac:(by eexists))).
    rewrite Forall_forall in Hall. by apply Hout, Hall.
Qed.

End TwoDimensionalArrays.

Lemma take_rows_spec_witness :
  let a := Np.Ndarray2 (8, 4) (Np.upto 32) in
  (∃ b, Np.take_rows a [-1; -3]%Z = Some b
        ∧ Np.shape b = (2, 4)
        ∧ Np.item b 1 2 = Np.item a 5 2)
  ∧ Np.take_rows a [4; 8]%Z = None.
Proof.
  intros a. destruct (take_rows_spec a [-1; -3]%Z eq_refl) as [Hok _].
  destruct (take_rows_spec a [4; 8]%Z eq_refl) as [_ Herr].
  split.
  - destruct Hok as (b & Hb & Hshape & Hitem).
    { apply (bool_decide_unpack _). vm_compute. exact I. }
    exists b. split; [exact Hb|]. split; [exact Hshape|].
    apply (Hitem 1 (-3)%Z 5 2); reflexivity.
  - apply Herr; [unfold a, Np.ncols; simpl; lia|].
    apply Exists_cons_tl, Exists_cons_hd. unfold a, Np.nrows. simpl. lia.
Defined.

Section FancyIndexing.
Context {A : Type}.
Implicit Types (a b : Np.ndarray2 A).

(** Within the model the two forms agree on every pair of index lists. *)
Lemma rows_then_cols_as_ix a (rows cols : list Z) :
  Np.wf a →
  Np.take_rows a rows ≫= (λ b, Np.take_cols b cols) = Np.take_ix a rows cols.
Proof.
  intros Hwf. destruct (take_rows_rows a rows Hwf) as [Hsome Hspec].
  unfold Np.take_ix.
  destruct (mapM (Np.index (Np.nrows a)) rows) as [ks|] eqn:Hks.
  2:{ unfold Np.take_rows. by rewrite Hks. }
  destruct (Np.take_rows a rows) as [b|] eqn:Hb.
  2:{ exfalso. assert (His : is_Some (None : option (Np.ndarray2 A))).
      { apply Hsome, indices_is_Some. by eexists. }
      by destruct His. }
  destruct (Hspec b eq_refl) as (Hshape & Hwfb & Hitem).
  pose proof (length_mapM _ _ _ Hks) as Hlen.
  assert (Hnb : Np.nrows b = length ks) by (unfold Np.nrows; by rewrite Hshape, Hlen).
  assert (Hcb : Np.ncols b = Np.ncols a) by (unfold Np.ncols; by rewrite Hshape).
  cbn [mbind option_bind]. unfold Np.take_cols. rewrite Hcb.
  destruct (mapM (Np.index (Np.ncols a)) cols) as [cs|] eqn:Hcs; [|done].
  cbn [mbind option_bind].
  pose proof (indices_lt _ _ _ Hks) as Hks_lt.
  pose proof (indices_lt _ _ _ Hcs) as Hcs_lt.
  destruct (gather_Some b (Np.nrows b, length cs)
              (Np.mesh (seq 0 (Np.nrows b)) cs) Hwfb) as (ys & -> & Hylen & Hy).
  { apply mesh_bounds; [apply seq_bounds | by rewrite Hcb]. }
  destruct (gather_Some a (length ks, length cs) (Np.mesh ks cs) Hwf)
    as (zs & -> & Hzlen & Hz).
  { by apply mesh_bounds. }
  rewrite Hnb. do 2 f_equal.
  unfold Np.mesh in *. rewrite length_bind_fmap in Hylen, Hzlen.
  rewrite length_seq, Hnb in Hylen.
  destruct (decide (length cs = 0)) as [Hz0|Hnz].
  { rewrite Hz0, Nat.mul_0_r in Hylen, Hzlen.
    apply nil_length_inv in Hylen, Hzlen. by subst. }
  apply list_eq. intros i. rewrite Hy, Hz.
  rewrite (Nat.div_mod_eq i (length cs)).
  set (q := i `div` length cs). set (r := i `mod` length cs).
  assert (Hr : r < length cs) by (apply Nat.mod_upper_bound; done).
  replace (length cs * q + r) with (q * length cs + r) by lia.
  rewrite !lookup_bind_fmap by done.
  destruct (lookup_lt_is_Some_2 cs r Hr) as [c Hc]. rewrite Hc.
  destruct (decide (q < length ks)) as [Hq|Hq].
  - rewrite lookup_seq_lt by lia.
    destruct (lookup_lt_is_Some_2 ks q Hq) as [k Hk]. rewrite Hk.
    cbn [mbind option_bind fst snd plus].
    pose proof (mapM_lookup _ _ _ q Hks) as Hq'. rewrite Hk in Hq'.
    destruct (rows !! q) as [z|] eqn:Hzq; [|done]. simpl in Hq'.
    by apply (Hitem q z k c).
  - rewrite lookup_seq_ge by lia. rewrite (lookup_ge_None_2 ks q) by lia. done.
Qed.

Lemma take_ix_Some a (rows cols : list Z) :
  Np.wf a →
  Forall (λ r, (- Z.of_nat (Np.nrows a) ≤ r < Z.of_nat (Np.nrows a))%Z) rows →
  Forall (λ c, (- Z.of_nat (Np.ncols a) ≤ c < Z.of_nat (Np.ncols a))%Z) cols →
  ∃ c, Np.take_ix a rows cols = Some c ∧ Np.shape c = (length rows, length cols).
Proof.
  intros Hwf Hrows Hcols. unfold Np.take_ix.
  destruct (proj2 (indices_is_Some _ _) Hrows) as [ks Hks].
  destruct (proj2 (indices_is_Some _ _) Hcols) as [cs Hcs].
  rewrite Hks, Hcs. cbn [mbind option_bind].
  destruct (gather_Some a (length ks, length cs) (Np.mesh ks cs) Hwf)
    as (xs & -> & _).
  { apply mesh_bounds; by eapply indices_lt. }
  eexists. split; [reflexivity|]. simpl.
  by rewrite (length_mapM _ _ _ Hks), (length_mapM _ _ _ Hcs).
Qed.

(** X3.  Picking rows and then columns, [a[rows][:, cols]] (line 270), is
    indexing with the open mesh, [a[np.ix_(rows, cols)]] (line 273): for
    index lists within the bounds of a well-formed array both succeed and
    give the same array, with one row per row index and one column per
    column index. *)
Theorem rows_then_cols_is_ix a (rows cols : list Z) :
  Np.wf a →
  Forall (λ r, (- Z.of_nat (Np.nrows a) ≤ r < Z.of_nat (Np.nrows a))%Z) rows →
  Forall (λ c, (- Z.of_nat (Np.ncols a) ≤ c < Z.of_nat (Np.ncols a))%Z) cols →
  ∃ c, Np.take_ix a rows cols = Some c
       ∧ Np.take_rows a rows ≫= (λ b, Np.take_cols b cols) = Some c
       ∧ Np.shape c = (length rows, length cols).
Proof.
  intros Hwf Hrows Hcols.
  destruct (take_ix_Some a rows cols Hwf Hrows Hcols) as (c & Hc & Hshape).
  exists c. split; [done|]. split; [|done].
  by rewrite rows_then_cols_as_ix.
Qed.

End FancyIndexing.

(** Lines 270 and 273 on [numbers_array(8, 4)]. *)
Lemma rows_then_cols_is_ix_witness :
  let a := Np.Ndarray2 (8, 4) (Np.upto 32) in
  Np.take_ix a [1; 5; 7; 2]%Z [0; 2]%Z
  = Some (Np.Ndarray2 (4, 2) [4; 6; 20; 22; 28; 30; 8; 10]%Z)
  ∧ Np.take_rows a [1; 5; 7; 2]%Z ≫= (λ b, Np.take_cols b [0; 2]%Z)
    = Some (Np.Ndarray2 (4, 2) [4; 6; 20; 22; 28; 30; 8; 10]%Z).
Proof.
  intros a.
  destruct (rows_then_cols_is_ix a [1; 5; 7; 2]%Z [0; 2]%Z eq_refl)
    as (c & Hc & Hrc & _).
  - apply (bool_decide_unpack _). vm_compute. exact I.
  - apply (bool_decide_unpack _). vm_compute. exact I.
  - assert (c = Np.Ndarray2 (4, 2) [4; 6; 20; 22; 28; 30; 8; 10]%Z) as ->.
    { vm_compute in Hc. congruence. }
    split; [reflexivity | exact Hrc].
Defined.

Section NumbersArray.

Lemma numbers_array_wf (mem : N) (nrow ncol : nat) (a : Np.ndarray2 Z) :
  Np.numbers_array mem nrow ncol = Some a →
  Np.wf a ∧ Np.nrows a = nrow ∧ Np.ncols a = ncol.
Proof.
  intros ->%numbers_array_inv. unfold Np.wf, Np.nrows, Np.ncols. simpl.
  by rewrite upto_length.
Qed.

Lemma numbers_array_item (mem : N) (nrow ncol : nat) (a : Np.ndarray2 Z) (i j : nat) :
  Np.numbers_array mem nrow ncol = Some a → i < nrow → j < ncol →
  Np.item a i j = Some (Z.of_nat (i * ncol + j)).
Proof.
  intros ->%numbers_array_inv Hi Hj.
  rewrite item_flat by done. simpl. unfold Np.ncols. simpl.
  apply upto_lookup. nia.
Qed.

(** X4.  The entries of [numbers_array(nrow, ncol)] name their positions:
    an index is in bounds exactly for [i < nrow] and [j < ncol]; the number
    [v] sits at row [v // ncol], column [v % ncol]; and no number occurs at
    two positions. *)
Theorem numbers_array_positions (mem : N) (nrow ncol : nat) (a : Np.ndarray2 Z) :
  Np.numbers_array mem nrow ncol = Some a →
  (∀ i j, is_Some (Np.item a i j) ↔ i < nrow ∧ j < ncol)
  ∧ (∀ v : nat, v < nrow * ncol →
       Np.item a (v `div` ncol) (v `mod` ncol) = Some (Z.of_nat v))
  ∧ (∀ i j i' j' x, Np.item a i j = Some x → Np.item a i' j' = Some x →
       i = i' ∧ j = j').
Proof.
  intros Ha. destruct (numbers_array_wf _ _ _ _ Ha) as (Hwf & Hn & Hm).
  assert (Hbounds : ∀ i j, is_Some (Np.item a i j) ↔ i < nrow ∧ j < ncol).
  { intros i j. rewrite (item_is_Some a i j Hwf). by rewrite Hn, Hm. }
  split; [exact Hbounds|]. split.
  - intros v Hv. assert (ncol ≠ 0) by (intros ->; lia).
    rewrite (numbers_array_item mem nrow ncol a) ; [| done | |].
    + do 2 f_equal. rewrite Nat.mul_comm. symmetry. apply Nat.div_mod_eq.
    + apply Nat.Div0.div_lt_upper_bound. lia.
    + by apply Nat.mod_upper_bound.
  - intros i j i' j' x Hx Hx'.
    destruct (proj1 (Hbounds i j)) as [Hi Hj]; [by eexists|].
    destruct (proj1 (Hbounds i' j')) as [Hi' Hj']; [by eexists|].
    rewrite (numbers_array_item mem nrow ncol a) in Hx, Hx' by done.
    assert (E : i * ncol + j = i' * ncol + j') by (simplify_eq; lia).
    assert (i = i') as ->.
    { destruct (Nat.lt_trichotomy i i') as [Hlt|[->|Hlt]]; [|done|]; nia. }
    split; [done | lia].
Qed.

Lemma numbers_array_positions_witness :
  ∃ a, Np.numbers_array (2 ^ 30) 7 4 = Some a
       ∧ Np.item a (22 `div` 4) (22 `mod` 4) = Some 22%Z
       ∧ Np.item a 7 0 = None.
Proof.
  exists (Np.Ndarray2 (7, 4) (Np.upto 28)).
  destruct (numbers_array_positions (2 ^ 30) 7 4 (Np.Ndarray2 (7, 4) (Np.upto 28)) eq_refl)
    as (Hb & Hv & _).
  split; [reflexivity|]. split; [apply (Hv 22); lia|].
  destruct (Np.item _ 7 0) eqn:E; [|done].
  destruct (proj1 (Hb 7 0)); [by eexists | lia].
Defined.

Lemma indices_of_nat (n : nat) (ks : list nat) :
  Forall (λ k, k < n) ks → mapM (Np.index n) (Z.of_nat <$> ks) = Some ks.
Proof.
  intros H. apply mapM_Some. induction H as [|k ks Hk _ IH]; simpl; constructor;
    [|done]. by apply index_of_nat.
Qed.

(** X5.  Indexing [numbers_array(nrow, ncol)] with a list of rows and a list
    of columns of one length, as at line 269, gives the 1-D array of the
    elements at the paired positions: [r*ncol + c] for each pair [(r, c)]. *)
Theorem numbers_array_pairs (mem : N) (nrow ncol : nat) (a : Np.ndarray2 Z)
    (ps : list (nat * nat)) :
  Np.numbers_array mem nrow ncol = Some a →
  Forall (λ p : nat * nat, p.1 < nrow ∧ p.2 < ncol) ps →
  Np.take_pairs a (Z.of_nat <$> ps.*1) (Z.of_nat <$> ps.*2)
  = Some ((λ p : nat * nat, Z.of_nat (p.1 * ncol + p.2)) <$> ps).
Proof.
  intros Ha Hps. destruct (numbers_array_wf _ _ _ _ Ha) as (Hwf & Hn & Hm).
  unfold Np.take_pairs. rewrite !length_fmap.
  rewrite broadcast_dim_same. cbn [mbind option_bind].
  rewrite !broadcast_to_same by (by rewrite !length_fmap).
  rewrite Hn, Hm.
  rewrite indices_of_nat by (induction Hps; simpl; constructor; tauto).
  cbn [mbind option_bind].
  rewrite indices_of_nat by (induction Hps; simpl; constructor; tauto).
  cbn [mbind option_bind].
  rewrite zip_fst_snd. apply mapM_Some.
  induction Hps as [|[r c] ps [Hr Hc] _ IH]; simpl; constructor; [|done].
  by apply (numbers_array_item mem nrow ncol).
Qed.

(** Line 269: the elements [1,0], [5,3], [7,1], [2,2] of
    [numbers_array(8, 4)]. *)
Lemma numbers_array_pairs_witness :
  ∃ a, Np.numbers_array (2 ^ 30) 8 4 = Some a
       ∧ Np.take_pairs a [1; 5; 7; 2]%Z [0; 3; 1; 2]%Z = Some [4; 23; 29; 10]%Z.
Proof.
  exists (Np.Ndarray2 (8, 4) (Np.upto 32)). split; [reflexivity|].
  apply (numbers_array_pairs (2 ^ 30) 8 4 _ [(1, 0); (5, 3); (7, 1); (2, 2)] eq_refl).
  repeat constructor; simpl; lia.
Defined.

End NumbersArray.

Section Transposition.
Context {A : Type}.
Implicit Types (a t : Np.ndarray2 A).

Lemma transpose_item a :
  Np.wf a →
  ∃ t, Np.transpose a = Some t
       ∧ Np.shape t = (Np.ncols a, Np.nrows a)
       ∧ Np.wf t
       ∧ ∀ i j, Np.item t j i = Np.item a i j.
Proof.
  intros Hwf. unfold Np.transpose.
  destruct (gather_Some a (Np.ncols a, Np.nrows a)
              (seq 0 (Np.ncols a) ≫= λ j, (λ i, (i, j)) <$> seq 0 (Np.nrows a))
              Hwf) as (xs & -> & Hlen & Hxs).
  { apply Forall_forall. intros [i j] Hin.
    apply list_elem_of_bind in Hin as (j' & Hin & Hj'%elem_of_seq).
    apply list_elem_of_fmap in Hin as (i' & Heq & Hi'%elem_of_seq).
    simplify_eq/=. lia. }
  rewrite length_bind_fmap, !length_seq in Hlen.
  eexists. split; [reflexivity|]. split; [reflexivity|].
  split; [exact Hlen|].
  intros i j. destruct (decide (i < Np.nrows a ∧ j < Np.ncols a)) as [[Hi Hj]|Hno].
  - rewrite item_flat by done. cbn [Np.flat Np.ncols Np.shape snd].
    rewrite Hxs.
    replace (j * Np.nrows a + i) with (j * length (seq 0 (Np.nrows a)) + i)
      by (by rewrite length_seq).
    rewrite lookup_bind_fmap by (by rewrite length_seq).
    rewrite !lookup_seq_lt by done. done.
  - rewrite !item_None; [done | done |].
    unfold Np.nrows, Np.ncols in *. simpl. tauto.
Qed.

(** X6.  Transposition, [arr.T] of line 298: the transpose of a well-formed
    array has the shape reversed and element [(j, i)] equal to element
    [(i, j)] of the array, out of bounds for the same indices; transposing
    twice gives the array back. *)
Theorem transpose_involutive a :
  Np.wf a →
  ∃ t, Np.transpose a = Some t
       ∧ Np.shape t = (Np.ncols a, Np.nrows a)
       ∧ (∀ i j, Np.item t j i = Np.item a i j)
       ∧ Np.transpose t = Some a.
Proof.
  intros Hwf. destruct (transpose_item a Hwf) as (t & Ht & Hshape & Hwft & Hitem).
  exists t. split; [done|]. split; [done|]. split; [done|].
  destruct (transpose_item t Hwft) as (u & -> & Hshape' & Hwfu & Hitem').
  f_equal.
  assert (Hn : Np.nrows u = Np.nrows a ∧ Np.ncols u = Np.ncols a).
  { unfold Np.nrows, Np.ncols in *. rewrite Hshape', Hshape. done. }
  destruct Hn as [Hn Hm].
  destruct a as [[n m] xs], u as [[n' m'] ys].
  unfold Np.nrows, Np.ncols, Np.wf in *. simpl in *. subst n' m'.
  f_equal. apply (list_eq_same_length _ _ (n * m)); [done | done |].
  intros k x y Hk Hx Hy.
  assert (m ≠ 0) by (intros ->; lia).
  pose proof (Hitem' (k `mod` m) (k `div` m)) as Hu.
  pose proof (Hitem (k `div` m) (k `mod` m)) as Ha.
  rewrite Ha in Hu.
  assert (Hq : k `div` m < n) by (apply Nat.Div0.div_lt_upper_bound; lia).
  assert (Hr : k `mod` m < m) by (by apply Nat.mod_upper_bound).
  rewrite !item_flat in Hu by done.
  unfold Np.ncols in Hu. simpl in Hu.
  assert (Hkk : k `div` m * m + k `mod` m = k).
  { rewrite Nat.mul_comm. symmetry. apply Nat.div_mod_eq. }
  rewrite Hkk in Hu. congruence.
Qed.

End Transposition.

(** Line 296-298: the transpose of [numbers_array(3, 5)]. *)
Lemma transpose_involutive_witness :
  ∃ t, Np.transpose (Np.Ndarray2 (3, 5) (Np.upto 15)) = Some t
       ∧ Np.shape t = (5, 3)
       ∧ Np.item t 4 2 = Some 14%Z
       ∧ Np.transpose t = Some (Np.Ndarray2 (3, 5) (Np.upto 15)).
Proof.
  destruct (transpose_involutive (Np.Ndarray2 (3, 5) (Np.upto 15)) eq_refl)
    as (t & Ht & Hs & Hi & Hback).
  exists t. split; [exact Ht|]. split; [exact Hs|]. split; [|exact Hback].
  rewrite Hi. reflexivity.
Defined.

Section BooleanSection.

Lemma int64_small (z : Z) : (- 2 ^ 63 ≤ z < 2 ^ 63)%Z → Np.int64 z = z.
Proof. intros Hz. unfold Np.int64. rewrite Z.mod_small; lia. Qed.

(** X7.  Lines 230-231 and 248 together, for any size, column and amount:
    after [data = numbers_array(nrow, ncol)], the statement
    [data[:, c] -= d] raises when [d] is no [int64]; otherwise it and
    [data[data < 0] = 0] leave in the column [c] of row [i] the larger of 0
    and [i*ncol + c - d] as [int64] arithmetic has it, and every other
    element as [numbers_array] made it.  The [int64] value is the integer
    [i*ncol + c - d] itself when [d] is [nrow*ncol - 2^63] or more. *)
Theorem column_shift_then_clamp (mem : N) (nrow ncol c : nat) (d : Z)
    (a : Np.ndarray2 Z) :
  Np.numbers_array mem nrow ncol = Some a →
  c < ncol →
  ((- 2 ^ 63 ≤ d < 2 ^ 63)%Z →
   ∃ b r, Np.isub_col a (Z.of_nat c) d = Some b
          ∧ Np.setmask2 b (Np.less b 0) 0%Z = Some r
          ∧ Np.shape r = (nrow, ncol)
          ∧ (∀ i j, i < nrow → j < ncol →
               Np.item r i j
               = Some (if decide (j = c)
                       then Z.max 0 (Np.int64 (Z.of_nat (i * ncol + c) - d))
                       else Z.of_nat (i * ncol + j)))
          ∧ ((Z.of_nat (nrow * ncol) - 2 ^ 63 ≤ d)%Z →
             ∀ i, i < nrow →
               Np.item r i c = Some (Z.max 0 (Z.of_nat (i * ncol + c) - d))))
  ∧ (¬ (- 2 ^ 63 ≤ d < 2 ^ 63)%Z → Np.isub_col a (Z.of_nat c) d = None).
Proof.
  intros ->%numbers_array_inv Hc.
  unfold Np.isub_col. cbn [Np.ncols Np.shape snd].
  rewrite index_of_nat by done. cbn [mbind option_bind].
  split; [|by intros Hd; rewrite bool_decide_eq_false_2].
  intros Hd. rewrite bool_decide_eq_true_2 by done.
  eexists. eexists. split; [reflexivity|].
  unfold Np.setmask2, Np.less. cbn [Np.shape Np.flat].
  rewrite decide_True by done.
  split; [reflexivity|]. split; [reflexivity|].
  assert (Hitem : ∀ i j, i < nrow → j < ncol →
            Np.item
              (Np.Ndarray2 (nrow, ncol)
                 (zip_with (λ (m : bool) x, if m then 0%Z else x)
                    ((λ x, bool_decide (x < 0)%Z) <$>
                     imap (λ k x, if decide (k `mod` ncol = c)
                                  then Np.int64 (x - d) else x)
                          (Np.upto (nrow * ncol)))
                    (imap (λ k x, if decide (k `mod` ncol = c)
                                  then Np.int64 (x - d) else x)
                          (Np.upto (nrow * ncol))))) i j
            = Some (if decide (j = c)
                    then Z.max 0 (Np.int64 (Z.of_nat (i * ncol + c) - d))
                    else Z.of_nat (i * ncol + j))).
  { intros i j Hi Hj. rewrite item_flat by done.
    cbn [Np.flat Np.ncols Np.shape snd].
    rewrite lookup_zip_with, list_lookup_fmap, list_lookup_imap.
    rewrite upto_lookup by nia.
    cbn [fmap option_fmap option_map mbind option_bind].
    assert (Hmod : (i * ncol + j) `mod` ncol = j).
    { rewrite Nat.add_comm, Nat.Div0.mod_add. by apply Nat.mod_small. }
    rewrite Hmod. f_equal.
    destruct (decide (j = c)) as [->|Hne].
    - case_bool_decide; lia.
    - case_bool_decide; lia. }
  split; [exact Hitem|].
  intros Hlow i Hi. rewrite (Hitem i c Hi Hc), decide_True by done.
  rewrite int64_small; [done|]. nia.
Qed.

(** Lines 230-231 and 248 as the script has them: 7 x 4, column 2, 20; and
    an amount that is no [int64]. *)
Lemma column_shift_then_clamp_witness :
  (∃ r, (a ← Np.numbers_array (2 ^ 30) 7 4;
         b ← Np.isub_col a 2 20;
         Np.setmask2 b (Np.less b 0) 0%Z) = Some r
        ∧ Np.item r 4 2 = Some 0%Z
        ∧ Np.item r 5 2 = Some 2%Z
        ∧ Np.item r 5 3 = Some 23%Z)
  ∧ (a ← Np.numbers_array (2 ^ 30) 7 4; Np.isub_col a 2 (2 ^ 63)) = None.
Proof.
  destruct (column_shift_then_clamp (2 ^ 30) 7 4 2 20 _ eq_refl) as [Hok _];
    [lia|].
  destruct (column_shift_then_clamp (2 ^ 30) 7 4 2 (2 ^ 63) _ eq_refl)
    as [_ Herr]; [lia|].
  split.
  - destruct Hok as (b & r & Hb & Hr & _ & Hi & Hexact); [lia|].
    exists r. split.
    + change ((b0 ← Np.isub_col (Np.Ndarray2 (7, 4) (Np.upto (7 * 4)))
                       (Z.of_nat 2) 20;
               Np.setmask2 b0 (Np.less b0 0) 0%Z) = Some r).
      rewrite Hb. exact Hr.
    + split; [|split];
        [rewrite (Hexact ltac:(lia) 4) | rewrite (Hexact ltac:(lia) 5)
         | rewrite (Hi 5 3)]; (reflexivity || lia).
  - change ((Np.isub_col (Np.Ndarray2 (7, 4) (Np.upto (7 * 4))) (Z.of_nat 2)
               (2 ^ 63)) = None).
    apply Herr. lia.
Defined.

(** The subtraction wraps: on the 2 x 2 array, taking [-(2^63 - 1)] from
    the column 1 leaves [-2^63] and [-2^63 + 2] there, which line 248 sets
    to 0. *)
Example column_shift_wraps :
  (a ← Np.numbers_array (2 ^ 30) 2 2;
   b ← Np.isub_col a 1 (- (2 ^ 63 - 1));
   Np.setmask2 b (Np.less b 0) 0%Z)
  = Some (Np.Ndarray2 (2, 2) [0; 0; 2; 0]%Z).
Proof. by vm_compute. Qed.

End BooleanSection.

Section ViewsInDepth.
Context {A : Type}.
Implicit Types (h : Np.store A) (a : Np.ndarray) (v : A) (b : list A).

Lemma length_filled b (o : nat) (ks : list nat) v :
  length (foldr (λ k b', <[o + k := v]> b') b ks) = length b.
Proof. induction ks as [|k ks IH]; simpl; [done|]. by rewrite length_insert. Qed.

(** The buffer after a write at the positions [o + k], [k] in [ks]. *)
Lemma lookup_filled b (o : nat) (ks : list nat) v (j : nat) :
  foldr (λ k b', <[o + k := v]> b') b ks !! j
  = if decide (j < length b ∧ o ≤ j ∧ j - o ∈ ks) then Some v else b !! j.
Proof.
  induction ks as [|k ks IH]; simpl.
  - rewrite decide_False; [done|]. intros (_ & _ & H). by apply elem_of_nil in H.
  - rewrite list_lookup_insert, length_filled, IH.
    destruct (decide (o + k = j ∧ o + k < length b)) as [[<- Hk]|Hno].
    + rewrite decide_True; [done|].
      split; [done|]. split; [lia|].
      replace (o + k - o) with k by lia. apply list_elem_of_here.
    + destruct (decide (j < length b ∧ o ≤ j ∧ j - o ∈ ks)) as [(Hj & Ho & Hin)|Hn].
      * rewrite decide_True; [done|]. split; [done|]. split; [done|].
        by apply list_elem_of_further.
      * rewrite decide_False; [done|]. intros (Hj & Ho & Hin).
        apply elem_of_cons in Hin as [Heq|Hin]; [|tauto].
        apply Hno. lia.
Qed.

Lemma elems_lookup h a b :
  h !! Np.base a = Some b →
  ∃ xs, Np.elems h a = Some xs
        ∧ ∀ j, xs !! j
               = if decide (j < Np.size a) then b !! (Np.offset a + j) else None.
Proof.
  intros Hb. unfold Np.elems. rewrite Hb. cbn [mbind option_bind].
  eexists. split; [reflexivity|]. intros j.
  rewrite lookup_take. case_decide; [|done]. by rewrite lookup_drop.
Qed.

Lemma elems_spec h a b :
  h !! Np.base a = Some b →
  Np.offset a + Np.size a ≤ length b →
  ∃ xs, Np.elems h a = Some xs
        ∧ length xs = Np.size a
        ∧ ∀ j, xs !! j
               = if decide (j < Np.size a) then b !! (Np.offset a + j) else None.
Proof.
  intros Hb Hlen. destruct (elems_lookup h a b Hb) as (xs & Hxs & Hx).
  exists xs. split; [done|]. split; [|done].
  destruct (elems_valid h a) as (ys & Hys & Hly); [by exists b|]. congruence.
Qed.

Lemma slice_indices_le (n : nat) (lo hi : option Z) :
  (Np.slice_indices n lo hi).1 ≤ n ∧ (Np.slice_indices n lo hi).2 ≤ n.
Proof. unfold Np.slice_indices. simpl. split; apply bound_le; lia. Qed.


End ViewsInDepth.

Section ViewWrites.
Context {A : Type}.
Implicit Types (h : Np.store A) (a : Np.ndarray) (v : A) (b : list A).

Lemma write_buffer h a (ks : list nat) v b :
  h !! Np.base a = Some b →
  ∃ h', Np.write h a ks v = Some h'
        ∧ h' !! Np.base a
          = Some (foldr (λ k b', <[Np.offset a + k := v]> b') b ks)
        ∧ length h' = length h
        ∧ ∀ i, i ≠ Np.base a → h' !! i = h !! i.
Proof.
  intros Hb. unfold Np.write. rewrite Hb. cbn [mbind option_bind].
  eexists. split; [reflexivity|].
  split; [apply list_lookup_insert_eq; by eapply lookup_lt_Some|].
  split; [apply length_insert|].
  intros i Hi. by apply list_lookup_insert_ne.
Qed.

(** X9.  Assigning a scalar to a slice fills the range and nothing else,
    also through a view: after [s = arr[lo:hi]] and [s[lo':hi'] = v], as at
    lines 205-207 (and 178, with [s] the whole array), the elements of
    [arr] in the range the two slices name are [v] and all others are as
    they were. *)
Theorem setslice_through_view h arr (lo hi lo' hi' : option Z) v
    (s1 e1 s2 e2 : nat) :
  Np.valid h arr →
  Np.slice_indices (Np.size arr) lo hi = (s1, e1) →
  Np.slice_indices (e1 - s1) lo' hi' = (s2, e2) →
  ∃ h' xs xs',
    Np.setslice h (Np.getslice arr lo hi) lo' hi' v = Some h'
    ∧ Np.elems h arr = Some xs
    ∧ Np.elems h' arr = Some xs'
    ∧ length xs' = length xs
    ∧ ∀ j, xs' !! j
           = if decide (s1 + s2 ≤ j < s1 + e2) then Some v else xs !! j.
Proof.
  intros (b & Hb & Hlen) H1 H2.
  pose proof (slice_indices_le (Np.size arr) lo hi) as [Hs1 He1].
  pose proof (slice_indices_le (e1 - s1) lo' hi') as [Hs2 He2].
  rewrite H1 in Hs1, He1. rewrite H2 in Hs2, He2. simpl in *.
  unfold Np.setslice, Np.getslice. rewrite H1. cbn [Np.size fst snd]. rewrite H2.
  cbn [fst snd].
  set (s := Np.Ndarray (Np.base arr) (Np.offset arr + s1) (e1 - s1)).
  destruct (write_buffer h s (seq s2 (e2 - s2)) v b Hb)
    as (h' & Hw & Hb' & _ & _).
  destruct (elems_spec h arr b Hb Hlen) as (xs & Hxs & Hlx & Hx).
  destruct (elems_spec h' arr _ Hb') as (xs' & Hxs' & Hlx' & Hx').
  { by rewrite length_filled. }
  exists h', xs, xs'. split; [done|]. split; [done|]. split; [done|].
  split; [congruence|].
  intros j. rewrite Hx', Hx, lookup_filled. subst s. cbn [Np.offset].
  destruct (decide (s1 + s2 ≤ j < s1 + e2)) as [Hin|Hout].
  - rewrite decide_True by lia. rewrite decide_True; [done|].
    split; [lia|]. split; [lia|]. apply elem_of_seq. lia.
  - case_decide; [|done]. rewrite decide_False; [done|].
    intros (_ & Hge & Hin%elem_of_seq). lia.
Qed.

End ViewWrites.

Section CopiesOfViews.
Context {A : Type}.
Implicit Types (h : Np.store A) (a : Np.ndarray) (v : A) (b : list A).

Lemma copy_spec h a :
  Np.valid h a →
  ∃ xs, Np.copy h a = Some (h ++ [xs], Np.Ndarray (length h) 0 (length xs))
        ∧ Np.elems h a = Some xs
        ∧ length xs = Np.size a.
Proof.
  intros Hv. destruct (elems_valid h a Hv) as (xs & Hxs & Hl).
  exists xs. unfold Np.copy. rewrite Hxs. done.
Qed.

(** X10.  [.copy()], as at line 214: the copy holds the elements of the
    array at the time of copying, and from then on the two are independent:
    no assignment into the copy changes the array, and none into the array
    changes the copy. *)
Theorem copy_is_independent h a :
  Np.valid h a →
  ∃ h1 c xs,
    Np.copy h a = Some (h1, c)
    ∧ Np.elems h a = Some xs
    ∧ Np.elems h1 c = Some xs
    ∧ Np.elems h1 a = Some xs
    ∧ (∀ (ss : list Np.assignment) h2,
         Np.assigns h1 c ss = Some h2 → Np.elems h2 a = Some xs)
    ∧ (∀ (ss : list Np.assignment) h2,
         Np.assigns h1 a ss = Some h2 → Np.elems h2 c = Some xs).
Proof.
  intros Hv. destruct (copy_spec h a Hv) as (xs & Hc & Hxs & Hl).
  pose proof Hv as (b & Hb & _). apply lookup_lt_Some in Hb.
  exists (h ++ [xs]), (Np.Ndarray (length h) 0 (length xs)), xs.
  assert (Hc1 : Np.elems (h ++ [xs]) (Np.Ndarray (length h) 0 (length xs)) = Some xs)
    by apply (elems_array h xs).
  assert (Ha1 : Np.elems (h ++ [xs]) a = Some xs).
  { rewrite <- Hxs. by apply (array_keeps h xs a). }
  split; [done|]. split; [done|]. split; [done|]. split; [done|]. split.
  - intros ss h2 Hss. rewrite <- Ha1. apply elems_ext.
    eapply assigns_other; [exact Hss|]. simpl. lia.
  - intros ss h2 Hss. rewrite <- Hc1. apply elems_ext.
    eapply assigns_other; [exact Hss|]. simpl. lia.
Qed.

Lemma getblock_valid h a (w : nat) (i : Z) blk :
  Np.valid h a → Np.getblock a w i = Some blk →
  Np.valid h blk ∧ Np.base blk = Np.base a ∧ Np.size blk = w
  ∧ Np.offset a ≤ Np.offset blk
  ∧ Np.offset blk + w ≤ Np.offset a + Np.size a.
Proof.
  intros (b & Hb & Hlen). unfold Np.getblock. intros Hblk.
  destruct (Np.index (Np.size a `div` w) i) as [k|] eqn:Hk; simplify_eq/=.
  apply index_Some in Hk as [Hk _].
  assert (w ≠ 0) by (intros ->; simpl in Hk; lia).
  assert (k * w + w ≤ Np.size a).
  { pose proof (Nat.Div0.mul_div_le (Np.size a) w). nia. }
  split; [exists b; simpl; split; [done | lia]|].
  repeat split; simpl; lia.
Qed.

(** X11.  Lines 192-196, for any block and value: after
    [old = a[i].copy()], [a[i] = v] and [a[i] = old], every element of [a]
    is as it was before.  The copy matters: with [a[i]] itself in place of
    its copy, the last assignment reads back what was just written, and the
    block stays filled with [v]. *)
Theorem copy_then_restore h a (w : nat) (i : Z) blk v :
  Np.valid h a →
  Np.getblock a w i = Some blk →
  (∃ h1 old h2 h3,
     Np.copy h blk = Some (h1, old)
     ∧ Np.fill h1 blk v = Some h2
     ∧ Np.elems h2 blk = Some (replicate w v)
     ∧ Np.setarray h2 blk old = Some h3
     ∧ Np.elems h3 a = Np.elems h a)
  ∧ (∃ k2 k3,
       Np.fill h blk v = Some k2
       ∧ Np.setarray k2 blk blk = Some k3
       ∧ Np.elems k3 blk = Some (replicate w v)).
Proof.
  intros Hva Hblk.
  destruct (getblock_valid h a w i blk Hva Hblk) as (Hvb & Hbase & Hsize & Hlo & Hhi).
  destruct Hva as (b & Hb & Hlen).
  assert (Hbb : h !! Np.base blk = Some b) by (by rewrite Hbase).
  assert (Hfill : ∀ h0, h0 !! Np.base blk = Some b →
            ∃ h2, Np.fill h0 blk v = Some h2
                  ∧ h2 !! Np.base blk
                    = Some (foldr (λ k b', <[Np.offset blk + k := v]> b') b (seq 0 w))
                  ∧ length h2 = length h0
                  ∧ (∀ j, j ≠ Np.base blk → h2 !! j = h0 !! j)
                  ∧ Np.elems h2 blk = Some (replicate w v)).
  { intros h0 H0. unfold Np.fill, Np.setslice, Np.slice_indices.
    cbn [Np.bound fst snd]. rewrite Hsize, Nat.sub_0_r.
    destruct (write_buffer h0 blk (seq 0 w) v b H0) as (h2 & Hw & Hb2 & Hl2 & Ho2).
    exists h2. split; [done|]. split; [done|]. split; [done|]. split; [done|].
    destruct (elems_spec h2 blk _ Hb2) as (ys & -> & Hly & Hys).
    { rewrite length_filled. lia. }
    f_equal. apply list_eq. intros j. rewrite Hys, lookup_filled, Hsize.
    destruct (decide (j < w)) as [Hj|Hj].
    - rewrite lookup_replicate_2 by done. rewrite decide_True; [done|].
      split; [lia|]. split; [lia|]. apply elem_of_seq. lia.
    - symmetry. apply lookup_replicate_None. lia. }
  split.
  - destruct (copy_spec h blk Hvb) as (xs & Hc & Hxs & Hl).
    destruct (elems_spec h blk b Hbb) as (xs0 & Hxs0 & _ & Hx); [lia|].
    assert (xs0 = xs) as -> by congruence.
    pose proof (lookup_lt_Some _ _ _ Hbb) as Hlt.
    destruct (Hfill (h ++ [xs])) as (h2 & Hf & Hb2 & Hl2 & Ho2 & He2).
    { by rewrite lookup_app_l. }
    set (old := Np.Ndarray (length h) 0 (length xs)).
    assert (Hold : Np.elems h2 old = Some xs).
    { rewrite <- (elems_array h xs). apply elems_ext. apply Ho2. simpl. lia. }
    eexists (h ++ [xs]), old, h2, _.
    split; [done|]. split; [done|]. split; [done|].
    unfold Np.setarray. rewrite Hold, Hb2. cbn [mbind option_bind].
    rewrite decide_True by lia. split; [reflexivity|].
    assert (Hrestored :
      list_inserts (Np.offset blk) xs
        (foldr (λ k b', <[Np.offset blk + k := v]> b') b (seq 0 w)) = b).
    { apply list_eq. intros j.
      destruct (decide (Np.offset blk ≤ j < Np.offset blk + length xs)) as [Hin|Hout].
      - rewrite list_lookup_inserts by (rewrite ?length_filled; lia).
        rewrite Hx, decide_True by lia. f_equal. lia.
      - destruct (decide (j < Np.offset blk)).
        + rewrite list_lookup_inserts_lt by done. rewrite lookup_filled.
          rewrite decide_False; [done|]. lia.
        + rewrite list_lookup_inserts_ge by lia. rewrite lookup_filled.
          rewrite decide_False; [done|].
          intros (_ & _ & Hin%elem_of_seq). lia. }
    rewrite Hrestored. unfold Np.elems.
    rewrite Hbase, list_lookup_insert_eq by (rewrite Hl2, length_app; simpl; lia).
    by rewrite Hb.
  - destruct (Hfill h Hbb) as (k2 & Hf & Hb2 & Hl2 & Ho2 & He2).
    eexists k2, _. split; [done|].
    unfold Np.setarray. rewrite He2, Hb2. cbn [mbind option_bind].
    rewrite length_replicate, decide_True by done. split; [reflexivity|].
    set (b2 := foldr (λ k b', <[Np.offset blk + k := v]> b') b (seq 0 w)).
    assert (Hsame : list_inserts (Np.offset blk) (replicate w v) b2 = b2).
    { apply list_eq. intros j.
      destruct (decide (Np.offset blk ≤ j < Np.offset blk + w)) as [Hin|Hout].
      - rewrite list_lookup_inserts
          by (rewrite ?length_replicate; unfold b2; rewrite ?length_filled; lia).
        rewrite lookup_replicate_2 by lia. unfold b2. rewrite lookup_filled.
        rewrite decide_True; [done|].
        split; [lia|]. split; [lia|]. apply elem_of_seq. lia.
      - destruct (decide (j < Np.offset blk)).
        + by rewrite list_lookup_inserts_lt.
        + rewrite list_lookup_inserts_ge; [done|]. rewrite length_replicate. lia. }
    rewrite Hsame. rewrite <- He2. apply elems_ext.
    rewrite list_lookup_insert_eq by (rewrite Hl2; by eapply lookup_lt_Some).
    by rewrite Hb2.
Qed.

End CopiesOfViews.

Lemma arange_10_valid : Np.valid [Np.upto 10] (Np.Ndarray 0 0 10).
Proof. exists (Np.upto 10). split; [reflexivity | simpl; lia]. Qed.


(** Lines 203-207: [slice1 = arr[2:7]], [slice1[:2] = -42]. *)
Lemma setslice_through_view_witness :
  let h := [Np.upto 10] in
  let arr := Np.Ndarray 0 0 10 in
  ∃ h' xs',
    Np.setslice h (Np.getslice arr (Some 2%Z) (Some 7%Z)) None (Some 2%Z) (-42)%Z
    = Some h'
    ∧ Np.elems h' arr = Some xs'
    ∧ xs' !! 3 = Some (-42)%Z
    ∧ xs' !! 4 = Some 4%Z.
Proof.
  intros h arr.
  destruct (setslice_through_view h arr (Some 2%Z) (Some 7%Z) None (Some 2%Z)
              (-42)%Z 2 7 0 2 arange_10_valid eq_refl eq_refl)
    as (h' & xs & xs' & Hs & Hxs & Hxs' & _ & Hl).
  exists h', xs'. split; [exact Hs|]. split; [exact Hxs'|].
  vm_compute in Hxs. injection Hxs as <-.
  split; [rewrite (Hl 3) | rewrite (Hl 4)]; reflexivity.
Defined.

(** Lines 212-216: [slice1 = arr[2:7].copy()], [slice1[:2] = -42]. *)
Lemma copy_is_independent_witness :
  let h := [Np.upto 10] in
  let s := Np.getslice (Np.Ndarray 0 0 10) (Some 2%Z) (Some 7%Z) in
  ∃ h1 c,
    Np.copy h s = Some (h1, c)
    ∧ Np.elems h1 c = Some [2; 3; 4; 5; 6]%Z
    ∧ ∀ h2, Np.assigns h1 c [Np.AssignSlice None (Some 2%Z) (-42)%Z] = Some h2 →
            Np.elems h2 s = Some [2; 3; 4; 5; 6]%Z.
Proof.
  intros h s.
  assert (Hv : Np.valid h s).
  { exists (Np.upto 10). split; [reflexivity | simpl; lia]. }
  destruct (copy_is_independent h s Hv) as (h1 & c & xs & Hc & Hxs & Hc1 & _ & Hkeep & _).
  vm_compute in Hxs. injection Hxs as <-.
  exists h1, c. split; [exact Hc|]. split; [exact Hc1|].
  intros h2 H2. exact (Hkeep _ _ H2).
Defined.

(** Lines 188-196: [arr3d] holds 1..12 in two blocks of six. *)
Lemma copy_then_restore_witness :
  let h : Np.store Z := [[1; 2; 3; 4; 5; 6; 7; 8; 9; 10; 11; 12]%Z] in
  let arr3d := Np.Ndarray 0 0 12 in
  ∃ blk h1 old h2 h3,
    Np.getblock arr3d 6 0 = Some blk
    ∧ Np.copy h blk = Some (h1, old)
    ∧ Np.fill h1 blk 42%Z = Some h2
    ∧ Np.elems h2 arr3d = Some [42; 42; 42; 42; 42; 42; 7; 8; 9; 10; 11; 12]%Z
    ∧ Np.setarray h2 blk old = Some h3
    ∧ Np.elems h3 arr3d = Some [1; 2; 3; 4; 5; 6; 7; 8; 9; 10; 11; 12]%Z.
Proof.
  intros h arr3d.
  assert (Hv : Np.valid h arr3d).
  { eexists. split; [reflexivity | simpl; lia]. }
  destruct (copy_then_restore h arr3d 6 0 (Np.Ndarray 0 0 6) 42%Z Hv eq_refl)
    as [(h1 & old & h2 & h3 & Hc & Hf & _ & Hs & He) _].
  exists (Np.Ndarray 0 0 6), h1, old, h2, h3.
  split; [reflexivity|]. split; [exact Hc|]. split; [exact Hf|].
  split; [|split; [exact Hs | rewrite He; reflexivity]].
  vm_compute in Hc. injection Hc as <- <-. vm_compute in Hf.
  injection Hf as <-. reflexivity.
Defined.

Section WhereBroadcasting.
Context {A : Type}.

Lemma broadcast_dim_1_r (n : nat) : Np.broadcast_dim n 1 = Some n.
Proof. unfold Np.broadcast_dim. repeat case_decide; congruence. Qed.

Lemma broadcast_to_scalar (n : nat) (x : A) : Np.broadcast_to n [x] = replicate n x.
Proof.
  unfold Np.broadcast_to. case_decide as H; [|done]. simpl in H. by subst.
Qed.

Lemma zip_with_replicate_r {B C} (f : B → A → C) (l : list B) (x : A) :
  zip_with f l (replicate (length l) x) = (λ y, f y x) <$> l.
Proof. induction l as [|y l IH]; simpl; [done | by rewrite IH]. Qed.

(** X12.  [np.where] with scalars, as at lines 289-290: a scalar is
    broadcast over the condition.  With two scalars every element of the
    result is one of them, chosen by the condition; with a scalar and an
    array of the length of the condition, the scalar replaces the elements
    where the condition holds and the others are kept.  The length of the
    result is that of the condition, also when it is empty. *)
Theorem where_broadcasts_scalars (cond : list bool) (x y : A) (ys : list A) :
  length ys = length cond →
  Np.np_where cond [x] [y] = Some ((λ c : bool, if c then x else y) <$> cond)
  ∧ Np.np_where cond [x] ys
    = Some (zip_with (λ (c : bool) y', if c then x else y') cond ys).
Proof.
  intros Hys. unfold Np.np_where. simpl length. rewrite broadcast_dim_1_r.
  cbn [mbind option_bind]. split.
  - rewrite broadcast_dim_1_r. cbn [mbind option_bind].
    rewrite (broadcast_to_same cond) by done. rewrite !broadcast_to_scalar.
    f_equal. generalize cond. clear. intros cond.
    induction cond as [|c cond IH]; simpl; [done | by rewrite IH].
  - rewrite Hys, broadcast_dim_same. cbn [mbind option_bind].
    rewrite (broadcast_to_same cond), (broadcast_to_same ys) by done.
    rewrite broadcast_to_scalar.
    f_equal. revert ys Hys.
    induction cond as [|c cond IH]; intros [|y' ys] Hys; simpl in *; try done.
    f_equal. apply IH. lia.
Qed.

(** X13.  Where the two ways of line 282 and line 284 part: on a condition
    whose length differs from that of the arrays (and neither length is 1)
    [np.where] raises, while the comprehension, built on [zip], returns a
    list cut to the shorter length, without an error. *)
Theorem where_raises_comprehension_truncates (cond : list bool) (xarr yarr : list A) :
  length xarr = length yarr →
  length cond ≠ length xarr →
  length cond ≠ 1 →
  length xarr ≠ 1 →
  Np.np_where cond xarr yarr = None
  ∧ length (Np.comprehension xarr yarr cond) = length cond `min` length xarr.
Proof.
  intros Hxy Hne Hc1 Hx1. split.
  - unfold Np.np_where, Np.broadcast_dim.
    rewrite (decide_False (P := length cond = 1)) by done.
    rewrite (decide_False (P := length xarr = 1)) by done.
    by rewrite (decide_False (P := length cond = length xarr)).
  - rewrite comprehension_zip_with, !length_zip_with. lia.
Qed.

End WhereBroadcasting.

(** Line 290, [np.where(arr > 0, 2, arr)], on integers. *)
Lemma where_broadcasts_scalars_witness :
  let arr := [3; -1; 0; 7]%Z in
  Np.np_where ((λ v, bool_decide (0 < v)%Z) <$> arr) [2%Z] arr = Some [2; -1; 0; 2]%Z
  ∧ Np.np_where ((λ v, bool_decide (0 < v)%Z) <$> arr) [2%Z] [(-2)%Z]
    = Some [2; -2; -2; 2]%Z.
Proof.
  intros arr.
  assert (Hl : length arr = length ((λ v, bool_decide (0 < v)%Z) <$> arr))
    by reflexivity.
  destruct (where_broadcasts_scalars ((λ v, bool_decide (0 < v)%Z) <$> arr)
              2%Z (-2)%Z arr Hl) as [H2 H1].
  split; [rewrite H1 | rewrite H2]; reflexivity.
Defined.

Lemma where_raises_comprehension_truncates_witness :
  Np.np_where [true; false] [1; 2; 3]%Z [4; 5; 6]%Z = None
  ∧ Np.comprehension [1; 2; 3]%Z [4; 5; 6]%Z [true; false] = [1; 5]%Z.
Proof.
  destruct (where_raises_comprehension_truncates [true; false] [1; 2; 3]%Z [4; 5; 6]%Z)
    as [Hw _]; [reflexivity | simpl; lia | simpl; lia | simpl; lia |].
  split; [exact Hw | reflexivity].
Defined.

(* ===================================================================== *)
(** * Further properties of the script                                     *)
(* ===================================================================== *)

Section Names.
Import Py.

(** The checks find what they look for. *)
Example unbound_finds :
  unbound python_builtins [(1, print (Name "x")); (2, assign "x" (int 1))] = [(1, "x")].
Proof. reflexivity. Qed.

Example arity_errors_finds :
  arity_errors [(1, FunctionDef "f" ["a"] [(2, Pass)]);
                (3, Expr (call (Name "f") [int 1; int 2]))] = [3].
Proof. reflexivity. Qed.

Example rebinds_finds :
  rebinds python_builtins [(1, Import "numpy" (Some "np")); (2, assign "np" (int 0));
                           (3, assign "len" (int 0))] = [2; 3].
Proof. reflexivity. Qed.

Lemma unbound_in_own known l s :
  unbound_in known l s = [] →
  ∀ x, x ∈ stmt_reads s → x ∈ known.
Proof.
  intros H x Hx.
  assert (Hown : filter (λ x, negb (mem x known)) (stmt_reads s) = []).
  { destruct s;
      repeat match goal with v : option expr |- _ => destruct v end;
      simpl in H |- *; try reflexivity;
      apply app_eq_nil in H as [H _]; by apply map_eq_nil in H. }
  destruct (mem x known) eqn:Hm; [by apply mem_elem_of|].
  assert (Hin : x ∈ filter (λ x, negb (mem x known)) (stmt_reads s)).
  { apply list_elem_of_filter. split; [by rewrite Hm | done]. }
  rewrite Hown in Hin. by apply elem_of_nil in Hin.
Qed.

(** A block that passes the check reads, at each of its statements, only
    names known at the start or bound by a statement before it. *)
Lemma unbound_sound known (b : block) :
  unbound known b = [] →
  ∀ k l s x, b !! k = Some (l, s) → x ∈ stmt_reads s →
    x ∈ known
    ∨ ∃ k' l' s', k' < k ∧ b !! k' = Some (l', s') ∧ x ∈ stmt_binds s'.
Proof.
  revert known. induction b as [|[l0 s0] b IH]; intros known H k l s x Hk Hx;
    [done|].
  simpl in H. apply app_eq_nil in H as [H0 Hrest].
  destruct k as [|k]; simpl in Hk.
  - simplify_eq. left. by eapply unbound_in_own.
  - destruct (IH _ Hrest k l s x Hk Hx) as [Hin|(k' & l' & s' & Hlt & Hk' & Hb)].
    + apply elem_of_app in Hin as [Hin|Hin]; [|by left].
      right. exists 0, l0, s0. split; [lia|]. done.
    + right. exists (S k'), l', s'. split; [lia|]. done.
Qed.

Lemma begun_before o (k k' : nat) (l l' : nat) (s s' : stmt) :
  script !! k = Some (l, s) → script !! k' = Some (l', s') → k' < k →
  l ∈ trace (run o script).2 → l' ∈ trace (run o script).2.
Proof.
  intros Hk Hk' Hlt Hl. destruct (trace_is_prefix o) as (n & Hn).
  rewrite Hn in Hl |- *.
  assert (Hlk : lines script !! k = Some l).
  { unfold lines. by rewrite list_lookup_fmap, Hk. }
  assert (Hlk' : lines script !! k' = Some l').
  { unfold lines. by rewrite list_lookup_fmap, Hk'. }
  apply list_elem_of_lookup in Hl as (j & Hj).
  apply lookup_take_Some in Hj as [Hj Hjn].
  assert (j = k) as -> by (eapply NoDup_lookup; eauto using script_lines_NoDup).
  apply list_elem_of_lookup. exists k'.
  apply lookup_take_Some. split; [done | lia].
Qed.

(** X14.  The script never reads a name before binding it: in every run,
    when a top-level statement begins, each name it reads is a builtin or
    was bound by an earlier statement executed in that run; and inside the
    helpers every name is a builtin, a parameter, a local bound before, or
    bound at top level before the [def]. *)
Theorem names_are_bound_before_use (o : oracle) (k l : nat) (s : stmt) (x : string) :
  script !! k = Some (l, s) →
  l ∈ trace (run o script).2 →
  x ∈ stmt_reads s →
  unbound python_builtins script = []
  ∧ (x ∈ python_builtins
     ∨ ∃ k' l' s', k' < k ∧ script !! k' = Some (l', s') ∧ x ∈ stmt_binds s'
                   ∧ l' ∈ trace (run o script).2).
Proof.
  intros Hk Hl Hx.
  assert (Hu : unbound python_builtins script = []) by (vm_compute; reflexivity).
  split; [exact Hu|].
  destruct (unbound_sound _ _ Hu k l s x Hk Hx) as [Hin|(k' & l' & s' & Hlt & Hk' & Hb)];
    [by left|].
  right. exists k', l', s'. split; [done|]. split; [done|]. split; [done|].
  exact (begun_before o k k' l l' s s' Hk Hk' Hlt Hl).
Qed.

(** Line 53: [heading] is read, and was bound by the [def] of line 48. *)
Lemma names_are_bound_before_use_witness :
  "heading" ∈ python_builtins
  ∨ ∃ k' l' s', k' < 5 ∧ script !! k' = Some (l', s')
                ∧ "heading" ∈ stmt_binds s'
                ∧ l' ∈ trace (run quiet script).2.
Proof.
  refine (proj2 (names_are_bound_before_use quiet 5 53
            (Expr (call (Name "heading")
               [str "numpy: N-D arrays, linear algebra, FFT, random numbers
and other numerical operations."])) "heading" _ _ _)).
  - reflexivity.
  - apply (bool_decide_unpack _). vm_compute. exact I.
  - apply list_elem_of_here.
Defined.

(** X15.  The helpers are called as they are defined, and nothing the
    script relies on is redefined: every call of [heading] or
    [numbers_array] passes as many arguments as the function has
    parameters, and no top-level statement binds again a name bound by an
    [import] or a [def], or the name of a builtin. *)
Theorem helpers_and_imports_stand :
  signatures script = [("heading", 1); ("numbers_array", 2)]
  ∧ arity_errors script = []
  ∧ rebinds python_builtins script = []
  ∧ ∀ o, Forall (λ m, m = "np") (modules (run o script).2).
Proof.
  split; [vm_compute; reflexivity|].
  split; [vm_compute; reflexivity|].
  split; [vm_compute; reflexivity|].
  intros o.
  assert (H : forallb (String.eqb "np") (modules (run o script).2) = true).
  { apply (run_invariant (λ st, forallb (String.eqb "np") (modules st)));
      [apply script_straight | done | vm_compute; reflexivity]. }
  apply Forall_forall. intros m Hm. rewrite forallb_forall in H.
  symmetry. apply String.eqb_eq, H. by apply list_elem_of_In.
Qed.

End Names.

Section Files.
Import Py.

(** A property checked on the state before each statement of a linear
    file, on the state in which the statement has begun, and on the state
    at the end, holds at the end of every run. *)
Lemma run_invariant_begun (P : state → bool) o (b : block) :
  straight_line b = true →
  forallb (λ k, P (steps (take k b) init)
                && match b !! k with
                   | Some (l, _) => P (visit l (steps (take k b) init))
                   | None => true
                   end)
          (seq 0 (S (length b))) = true →
  P (run o b).2 = true.
Proof.
  intros Hb Hall. rewrite forallb_forall in Hall.
  destruct (run_straight o b Hb) as [[_ Hr]|(k & l & s & Hlk & _ & _ & Hr)];
    rewrite Hr; cbn [snd].
  - specialize (Hall (length b)). rewrite firstn_all in Hall.
    apply andb_true_iff in Hall as [H _]; [done|]. apply in_seq. lia.
  - specialize (Hall k). rewrite Hlk in Hall.
    apply andb_true_iff in Hall as [_ H]; [done|].
    apply in_seq. apply lookup_lt_Some in Hlk. lia.
Qed.

Example file_reads_script : file_reads script = [(388, some_array)].
Proof. reflexivity. Qed.

(** X16.  The script reads back only what it has written: in every run,
    when a statement that loads a file has begun (the [np.load] of line
    388), the file was written earlier in the same run (by the [np.save] of
    line 387, under the name [np.save] gives it). *)
Theorem loads_what_it_saved (o : oracle) (l : nat) (f : string) :
  (l, f) ∈ file_reads script →
  l ∈ trace (run o script).2 →
  f ∈ written (run o script).2.
Proof.
  intros Hf Hl.
  assert (H : reads_what_was_written script (run o script).2 = true).
  { apply run_invariant_begun; [apply script_straight | vm_compute; reflexivity]. }
  unfold reads_what_was_written in H. rewrite forallb_forall in H.
  specialize (H (l, f) (proj1 (list_elem_of_In _ _) Hf)). cbn [fst snd] in H.
  apply orb_true_iff in H as [H|H]; [|by apply mem_elem_of].
  apply negb_true_iff in H.
  assert (Ht : existsb (Nat.eqb l) (trace (run o script).2) = true).
  { apply existsb_exists. exists l.
    split; [by apply list_elem_of_In | apply Nat.eqb_refl]. }
  congruence.
Qed.

Lemma loads_what_it_saved_witness :
  some_array ∈ written (run (raising_at 388) script).2.
Proof.
  apply (loads_what_it_saved (raising_at 388) 388 some_array).
  - apply list_elem_of_here.
  - apply (bool_decide_unpack _). vm_compute. exact I.
Defined.

(** The check fails on a file that loads before it saves. *)
Example reads_what_was_written_fails :
  let b := [(1, Import "numpy" (Some "np"));
            (2, Expr (call (np "load") [str "a.npy"]));
            (3, Expr (call (np "save") [str "a"; Name "x"]))] in
  reads_what_was_written b (run quiet b).2 = true
  ∧ reads_what_was_written b (run (raising_at 2) b).2 = false.
Proof. split; reflexivity. Qed.

(** X17.  Running the script again changes no file name: once a run has
    reached the end of the script, any further run, complete or not, leaves
    the set of files on disk as the first run left it. *)
Theorem second_run_adds_no_file (o1 o2 : oracle) (fs : gset string) :
  (run o1 script).1 = Normal →
  disk (disk fs (run o1 script).2) (run o2 script).2 = disk fs (run o1 script).2.
Proof.
  intros Hn. rewrite (run_normal o1 script script_straight Hn). cbn [snd].
  assert (Hw : written (steps script init) = [some_array])
    by (vm_compute; reflexivity).
  pose proof (written_bounded o2) as H2. unfold writes_at_most_some_array in H2.
  unfold disk. rewrite Hw.
  destruct (written (run o2 script).2) as [|f [|g ws]]; [| |discriminate H2].
  - rewrite list_to_set_nil. by rewrite union_empty_r_L.
  - apply String.eqb_eq in H2. subst f.
    rewrite !list_to_set_cons, !list_to_set_nil, !union_empty_r_L.
    rewrite <- union_assoc_L. by rewrite union_idemp_L.
Qed.

Lemma second_run_adds_no_file_witness :
  disk (disk ∅ (run quiet script).2) (run (raising_at 242) script).2
  = disk ∅ (run quiet script).2.
Proof.
  apply (second_run_adds_no_file quiet (raising_at 242) ∅).
  vm_compute. reflexivity.
Defined.

End Files.

Section ChainedIndices.
Context {A : Type}.
Implicit Types (a : Np.ndarray2 A).

(** X18.  [a[i][j]] and [a[i, j]], lines 184-185, are the same element: on
    a well-formed array the chained and the paired index agree for all
    integers [i] and [j], negative ones counting from the end, and raise for
    the same ones. *)
Theorem chained_index_is_paired a (i j : Z) :
  Np.wf a →
  Np.getrow a i ≫= (λ r, Np.getitem r j) = Np.getitem2 a i j.
Proof.
  intros Hwf. unfold Np.getrow, Np.getitem2.
  destruct (Np.index (Np.nrows a) i) as [ki|] eqn:Hi; [|done].
  cbn [mbind option_bind]. apply index_Some in Hi as [Hki _].
  assert (Hlen : length (take (Np.ncols a) (drop (ki * Np.ncols a) (Np.flat a)))
                 = Np.ncols a).
  { rewrite length_take, length_drop, Hwf. nia. }
  unfold Np.getitem. rewrite Hlen.
  destruct (Np.index (Np.ncols a) j) as [kj|] eqn:Hj; [|done].
  cbn [mbind option_bind]. apply index_Some in Hj as [Hkj _].
  rewrite lookup_take_lt, lookup_drop by done. by rewrite item_flat.
Qed.

End ChainedIndices.

Section Masks.
Context {A : Type}.

Lemma select_length_le (mask : list bool) (xs : list A) :
  length (Np.select mask xs) ≤ length xs.
Proof.
  revert xs. induction mask as [|m mask IH]; intros [|x xs]; simpl; try lia.
  specialize (IH xs). destruct m; simpl; lia.
Qed.

(** X19.  The masks [cats == s] and [cats != s] (lines 236 and 241) split
    the rows: each row of [data] is selected by exactly one of the two, so
    the two selections together are a rearrangement of [data], and each
    keeps the rows it selects in their order. *)
Theorem eq_and_ne_masks_split (cats : list string) (s : string) (xs : list A) :
  length cats = length xs →
  Np.select (Np.eq_mask cats s) xs ++ Np.select (Np.ne_mask cats s) xs ≡ₚ xs
  ∧ sublist (Np.select (Np.eq_mask cats s) xs) xs
  ∧ sublist (Np.select (Np.ne_mask cats s) xs) xs.
Proof.
  unfold Np.eq_mask, Np.ne_mask. revert xs.
  induction cats as [|c cats IH]; intros [|x xs] Hlen; simplify_eq/=.
  - split; [done|]. split; constructor.
  - destruct (IH xs Hlen) as (Hp & Hs1 & Hs2).
    destruct (Np.str_eq c s); simpl.
    + split; [by rewrite Hp|]. split; by constructor.
    + split; [by rewrite <- Permutation_middle, Hp|]. split; by constructor.
Qed.

(** The elements after [a[mask] = v]. *)
Lemma setmask_elems (h : Np.store A) (a : Np.ndarray) (mask : list bool) (v : A) :
  Np.valid h a → length mask = Np.size a →
  ∃ h' xs, Np.setmask h a mask v = Some h'
           ∧ Np.valid h' a
           ∧ Np.elems h a = Some xs
           ∧ Np.elems h' a
             = Some (zip_with (λ (m : bool) x, if m then v else x) mask xs).
Proof.
  intros (b & Hb & Hlen) Hm. unfold Np.setmask.
  rewrite decide_True by (by left).
  destruct (write_buffer h a (Np.positions 0 mask) v b Hb) as (h' & Hw & Hb' & _ & _).
  destruct (elems_spec h a b Hb Hlen) as (xs & Hxs & Hlx & Hx).
  destruct (elems_spec h' a _ Hb') as (ys & Hys & Hly & Hy).
  { by rewrite length_filled. }
  exists h', xs. split; [done|].
  split; [eexists; split; [exact Hb' | by rewrite length_filled]|].
  split; [done|]. rewrite Hys. f_equal.
  assert (Hpos : ∀ (k j : nat) (ms : list bool),
            j ∈ Np.positions k ms ↔ k ≤ j ∧ ms !! (j - k) = Some true).
  { intros k j ms. revert k. induction ms as [|m ms IHm]; intros k; simpl.
    - rewrite elem_of_nil. split; [done|]. intros [_ Hl].
      by rewrite lookup_nil in Hl.
    - destruct m.
      + rewrite elem_of_cons, IHm. split.
        * intros [->|[Hk Hl]].
          -- split; [lia|]. by rewrite Nat.sub_diag.
          -- split; [lia|]. by replace (j - k) with (S (j - S k)) by lia.
        * intros [Hk Hl]. destruct (decide (j = k)) as [|Hne]; [by left|].
          right. split; [lia|].
          by replace (j - k) with (S (j - S k)) in Hl by lia.
      + rewrite IHm. split.
        * intros [Hk Hl]. split; [lia|].
          by replace (j - k) with (S (j - S k)) by lia.
        * intros [Hk Hl]. destruct (decide (j = k)) as [->|Hne].
          { by rewrite Nat.sub_diag in Hl. }
          split; [lia|]. by replace (j - k) with (S (j - S k)) in Hl by lia. }
  apply list_eq. intros j. rewrite Hy, lookup_filled, lookup_zip_with, Hx.
  destruct (decide (j < Np.size a)) as [Hj|Hj].
  - destruct (lookup_lt_is_Some_2 mask j) as [m Hmj]; [lia|].
    destruct (lookup_lt_is_Some_2 b (Np.offset a + j)) as [x Hbj]; [lia|].
    rewrite Hmj, Hbj. cbn [mbind option_bind].
    destruct m.
    + rewrite decide_True; [done|]. split; [lia|]. split; [lia|].
      apply Hpos. split; [lia|].
      by replace (Np.offset a + j - Np.offset a - 0) with j by lia.
    + rewrite decide_False; [done|]. intros (_ & _ & Hin%Hpos).
      destruct Hin as [_ Hin].
      replace (Np.offset a + j - Np.offset a - 0) with j in Hin by lia.
      congruence.
  - rewrite (lookup_ge_None_2 mask) by lia. done.
Qed.

Lemma select_eq_after_ne (cats : list string) (s : string) (xs : list A) (v : A) :
  Np.select (Np.eq_mask cats s)
    (zip_with (λ (m : bool) x, if m then v else x) (Np.ne_mask cats s) xs)
  = Np.select (Np.eq_mask cats s) xs.
Proof.
  unfold Np.eq_mask, Np.ne_mask. revert xs.
  induction cats as [|c cats IH]; intros [|x xs]; simpl; try done.
  destruct (Np.str_eq c s); simpl; by rewrite IH.
Qed.

(** Two strings are equal for the comparison exactly when they are the same
    up to the NUL characters at their ends. *)
Lemma str_eq_spec (c s : string) :
  Np.str_eq c s = true ↔ Np.rstrip_nul c = Np.rstrip_nul s.
Proof. unfold Np.str_eq. apply String.eqb_eq. Qed.

(** X20.  Lines 250-255, for any category and value: after
    [data[cats != s] = v], the rows whose category differs from [s] in more
    than NUL characters at the end hold [v], and [data[cats == s]] selects
    the same rows, with the same contents, as it would have before the
    assignment. *)
Theorem ne_assignment_keeps_eq_rows (h : Np.store A) (a : Np.ndarray)
    (cats : list string) (s : string) (v : A) :
  Np.valid h a → length cats = Np.size a →
  ∃ h' xs ys h1 subset,
    Np.setmask h a (Np.ne_mask cats s) v = Some h'
    ∧ Np.elems h a = Some xs
    ∧ Np.elems h' a = Some ys
    ∧ (∀ j c, cats !! j = Some c → Np.rstrip_nul c ≠ Np.rstrip_nul s →
         ys !! j = Some v)
    ∧ Np.getmask h' a (Np.eq_mask cats s) = Some (h1, subset)
    ∧ Np.elems h1 subset = Some (Np.select (Np.eq_mask cats s) xs).
Proof.
  intros Hv Hlen.
  destruct (setmask_elems h a (Np.ne_mask cats s) v Hv) as (h' & xs & Hs & Hv' & Hxs & Hys).
  { unfold Np.ne_mask. by rewrite length_fmap. }
  destruct (getmask_copies h' a (Np.eq_mask cats s) Hv')
    as (h1 & subset & ys & Hg & Hys' & Hsub & _ & _).
  { unfold Np.eq_mask. by rewrite length_fmap. }
  exists h', xs, ys, h1, subset.
  split; [done|]. split; [done|]. split; [done|].
  assert (ys = zip_with (λ (m : bool) x, if m then v else x) (Np.ne_mask cats s) xs)
    as -> by congruence.
  split.
  - intros j c Hc Hne. rewrite lookup_zip_with. unfold Np.ne_mask.
    rewrite list_lookup_fmap, Hc. cbn [fmap option_fmap option_map mbind option_bind].
    destruct (elems_valid h a Hv) as (xs' & Hxs' & Hl').
    assert (xs' = xs) as -> by congruence.
    destruct (lookup_lt_is_Some_2 xs j) as [x Hx].
    { apply lookup_lt_Some in Hc. lia. }
    rewrite Hx. cbn [mbind option_bind].
    destruct (Np.str_eq c s) eqn:E; [|done].
    by apply str_eq_spec in E.
  - split; [done|]. by rewrite Hsub, select_eq_after_ne.
Qed.

End Masks.

(** Lines 184-185 on [arr2d]. *)
Lemma chained_index_is_paired_witness :
  let arr2d := Np.Ndarray2 (3, 3) [1; 2; 3; 4; 5; 6; 7; 8; 9]%Z in
  Np.getrow arr2d 0 ≫= (λ r, Np.getitem r 2) = Some 3%Z
  ∧ Np.getitem2 arr2d 0 2 = Some 3%Z
  ∧ Np.getitem2 arr2d 0 3 = None.
Proof.
  intros arr2d.
  pose proof (chained_index_is_paired arr2d 0 2 eq_refl) as H.
  split; [reflexivity|]. split; [by rewrite <- H | reflexivity].
Defined.

(** Lines 224-241: the seven cats and seven rows. *)
Lemma eq_and_ne_masks_split_witness :
  let cats := ["tabby"; "calico"; "siamese"; "tabby"; "siamese"; "calico";
               "calico"]%string in
  let rows := [0; 1; 2; 3; 4; 5; 6] in
  Np.select (Np.eq_mask cats "tabby") rows = [0; 3]
  ∧ Np.select (Np.ne_mask cats "tabby") rows = [1; 2; 4; 5; 6]
  ∧ [0; 3] ++ [1; 2; 4; 5; 6] ≡ₚ rows.
Proof.
  intros cats rows.
  destruct (eq_and_ne_masks_split cats "tabby" rows eq_refl) as (Hp & _ & _).
  split; [reflexivity|]. split; [reflexivity|]. exact Hp.
Defined.

(** Lines 250-255 on seven rows numbered 0 to 6. *)
Lemma ne_assignment_keeps_eq_rows_witness :
  let cats := ["tabby"; "calico"; "siamese"; "tabby"; "siamese"; "calico";
               "calico"]%string in
  let h : Np.store Z := [Np.upto 7] in
  let data := Np.Ndarray 0 0 7 in
  ∃ h' ys h1 subset,
    Np.setmask h data (Np.ne_mask cats "calico") (-5)%Z = Some h'
    ∧ Np.elems h' data = Some ys
    ∧ ys !! 0 = Some (-5)%Z
    ∧ Np.getmask h' data (Np.eq_mask cats "calico") = Some (h1, subset)
    ∧ Np.elems h1 subset = Some [1; 5; 6]%Z.
Proof.
  intros cats h data.
  assert (Hv : Np.valid h data).
  { eexists. split; [reflexivity | simpl; lia]. }
  destruct (ne_assignment_keeps_eq_rows h data cats "calico" (-5)%Z Hv eq_refl)
    as (h' & xs & ys & h1 & subset & Hs & Hxs & Hys & Hv5 & Hg & Hsub).
  exists h', ys, h1, subset.
  split; [exact Hs|]. split; [exact Hys|].
  split; [apply (Hv5 0 "tabby"%string); [reflexivity | by vm_compute]|].
  split; [exact Hg|].
  vm_compute in Hxs. injection Hxs as <-. exact Hsub.
Defined.

(** A NUL at the end is padding: ['tabby\x00'] selects the rows of
    ['tabby'], and a NUL inside a string is a character as any other. *)
Example nul_padding :
  let nul := String Ascii.zero EmptyString in
  let cats := ["tabby"; "calico"; "tabby"]%string in
  Np.eq_mask cats (String.append "tabby" nul) = [true; false; true]
  ∧ Np.ne_mask cats (String.append "tabby" nul) = [false; true; false]
  ∧ Np.eq_mask cats (String.append "tab" (String.append nul "by"))
    = [false; false; false].
Proof. by vm_compute. Qed.
